(** * Graph page of kiali-ui: the graph-refresh decision logic

    A shallow embedding of the [GraphPage] component: the static helpers
    [getNodeParamsFromProps] and [isNodeChanged], the refetch condition of
    [componentDidUpdate], the request built by [loadGraphDataFromBackend],
    and the start-up sequence [constructor] / [componentDidMount].

    Conventions of the embedding.
    - A JavaScript value of type [string | undefined] is an [option string];
      [None] is [undefined].  Strict (in)equality [===] / [!==] on such
      values is decidable equality on [option string].
    - The numbers of the component (seconds, milliseconds) are integer
      counts and are modelled by [Z].
    - An object is a pair of an address and its fields; [===] on objects
      compares addresses only.
    - Methods with effects are functions on a [World]: the node held by the
      redux store, the next free address, and the chronological trace of
      the calls made to the collaborators. *)

From stdpp Require Import base decidable option list strings numbers.

Open Scope Z_scope.
Open Scope string_scope.
Open Scope list_scope.

(** ** Values imported from types/Graph and types/Namespace *)

(** Modelled from the spec: the constant [UNKNOWN] of types/Graph is not
    among the sources; the spec calls it the "unknown" sentinel. *)
Definition UNKNOWN : string := "unknown".

(** Modelled from the spec: the enum [NodeType] of types/Graph is not among
    the sources; the spec lists the node kinds APP, WORKLOAD and SERVICE. *)
Inductive NodeType := APP | SERVICE | WORKLOAD.

#[global] Instance NodeType_eq_dec : EqDecision NodeType.
Proof. solve_decision. Defined.

(** Modelled from the spec: the enum [EdgeLabelMode] of types/Graph is not
    among the sources.  The component names one member,
    [RESPONSE_TIME_95TH_PERCENTILE]; every other member is kept apart by
    its tag. *)
Inductive EdgeLabelMode :=
  | RESPONSE_TIME_95TH_PERCENTILE
  | OTHER_EDGE_LABEL_MODE (tag : string).

#[global] Instance EdgeLabelMode_eq_dec : EqDecision EdgeLabelMode.
Proof. solve_decision. Defined.

(** Modelled from the spec: the enum [GraphType] of types/Graph is not among
    the sources; the component only compares its values, a member is
    identified by its tag. *)
Inductive GraphType := GRAPH_TYPE (tag : string).

#[global] Instance GraphType_eq_dec : EqDecision GraphType.
Proof. solve_decision. Defined.

(** [Namespace] objects are read through their [name] only.  The name is a
    [string | undefined] because [getNodeParamsFromProps] stores the raw
    path variable in it. *)
Record Namespace := { name : option string }.

#[global] Instance Namespace_eq_dec : EqDecision Namespace.
Proof. solve_decision. Defined.

(** ** Path variables *)

Module URL.
(** [Partial<GraphURLPathProps>]: every path variable may be missing. *)
Record GraphURLPathProps := {
  app : option string;
  namespace : option string;
  service : option string;
  version : option string;
  workload : option string
}.
End URL.

(** ** Focused node *)

Record NodeParamsType := {
  app : option string;
  namespace : Namespace;
  nodeType : NodeType;
  service : option string;
  version : option string;
  workload : option string
}.

#[global] Instance NodeParamsType_eq_dec : EqDecision NodeParamsType.
Proof. solve_decision. Defined.

(** A [NodeParamsType] object on the heap: where it lives and what it
    holds. *)
Definition loc := nat.
Bind Scope nat_scope with loc.

Record NodeObj := { addr : loc; fields : NodeParamsType }.

#[global] Instance NodeObj_eq_dec : EqDecision NodeObj.
Proof. solve_decision. Defined.

(** Two object values taken from one heap: the same address holds the same
    fields. *)
Definition same_heap (a b : NodeObj) : Prop :=
  addr a = addr b → fields a = fields b.

(** [prevNode === node] on [NodeParamsType | undefined]. *)
Definition node_strict_eq (a b : option NodeObj) : bool :=
  match a, b with
  | None, None => true
  | Some x, Some y => bool_decide (addr x = addr y)
  | _, _ => false
  end.

(** Truthiness of [NodeParamsType | undefined]: an object is truthy. *)
Definition node_truthy (a : option NodeObj) : bool :=
  match a with Some _ => true | None => false end.

(** The test [x && x !== UNKNOWN && x !== 'undefined'] followed by its use
    as a condition: [undefined] and the empty string are falsy. *)
Definition paramOk (x : option string) : bool :=
  match x with
  | None => false
  | Some s =>
      bool_decide (s ≠ "") && bool_decide (s ≠ UNKNOWN)
        && bool_decide (s ≠ "undefined")
  end.

(** [GraphPage.getNodeParamsFromProps], applied to [props.match.params].
    The object literal it returns is allocated at [fresh]. *)
Definition getNodeParamsFromProps (fresh : loc) (params : URL.GraphURLPathProps)
  : option NodeObj :=
  let app := URL.app params in
  let appOk := paramOk app in
  let namespace := URL.namespace params in
  let namespaceOk := paramOk namespace in
  let service := URL.service params in
  let serviceOk := paramOk service in
  let workload := URL.workload params in
  let workloadOk := paramOk workload in
  if negb appOk && negb namespaceOk && negb serviceOk && negb workloadOk
  then None
  else
    let '(nodeType, version) :=
      if appOk || workloadOk
      then (if appOk then APP else WORKLOAD, URL.version params)
      else (SERVICE, Some "") in
    Some {| addr := fresh;
            fields := {| app := app;
                         namespace := {| name := namespace |};
                         nodeType := nodeType;
                         service := service;
                         version := version;
                         workload := workload |} |}.

(** [GraphPage.isNodeChanged]. *)
Definition isNodeChanged (prevNode node : option NodeObj) : bool :=
  if node_strict_eq prevNode node then false
  else if (node_truthy prevNode && negb (node_truthy node))
          || (negb (node_truthy prevNode) && node_truthy node) then true
  else
    match prevNode, node with
    | Some p, Some n =>
        let prevNode := fields p in
        let node := fields n in
        let nodeAppHasChanged := bool_decide (app prevNode ≠ app node) in
        let nodeServiceHasChanged :=
          bool_decide (service prevNode ≠ service node) in
        let nodeVersionHasChanged :=
          bool_decide (version prevNode ≠ version node) in
        let nodeTypeHasChanged :=
          bool_decide (nodeType prevNode ≠ nodeType node) in
        let nodeWorkloadHasChanged :=
          bool_decide (workload prevNode ≠ workload node) in
        nodeAppHasChanged || nodeServiceHasChanged || nodeVersionHasChanged
          || nodeWorkloadHasChanged || nodeTypeHasChanged
    | _, _ => false
    end.

(** ** Snapshots of the fetch-relevant inputs *)

(** Modelled from the spec: [arrayEquals] of utils/Common is not among the
    sources.  The spec fixes what the component obtains from it: equality
    of the two collections as sets under the comparator, "not by order or
    object identity". *)
Definition arrayEquals {T : Type} (a1 a2 : list T)
    (comparator : T → T → bool) : bool :=
  forallb (λ v1, existsb (λ v2, comparator v1 v2) a2) a1
  && forallb (λ v2, existsb (λ v1, comparator v1 v2) a1) a2.

(** The props read by the lifecycle methods modelled here.  [match_params]
    is [props.match.params], [activeTour] tells whether a tour is set and
    [layoutName] is [props.layout.name].  Props read by [render] alone are
    left out. *)
Record GraphPageProps := {
  match_params : URL.GraphURLPathProps;
  activeNamespaces : list Namespace;
  activeTour : bool;
  duration : Z;
  edgeLabelMode : EdgeLabelMode;
  graphType : GraphType;
  lastRefreshAt : Z;
  layoutName : string;
  node : option NodeObj;
  replayQueryTime : Z;
  showLegend : bool;
  showSecurity : bool;
  showServiceNodes : bool;
  showUnusedNodes : bool
}.

(** [activeNamespacesChanged] of [componentDidUpdate]. *)
Definition activeNamespacesChanged (prev curr : GraphPageProps) : bool :=
  negb (arrayEquals (activeNamespaces prev) (activeNamespaces curr)
          (λ n1 n2, bool_decide (name n1 = name n2))).

(** The condition under which [componentDidUpdate] calls
    [loadGraphDataFromBackend]. *)
Definition shouldRefetch (prev curr : GraphPageProps) : bool :=
  activeNamespacesChanged prev curr
  || bool_decide (duration prev ≠ duration curr)
  || (bool_decide (edgeLabelMode prev ≠ edgeLabelMode curr)
      && bool_decide (edgeLabelMode curr = RESPONSE_TIME_95TH_PERCENTILE))
  || bool_decide (graphType prev ≠ graphType curr)
  || (bool_decide (lastRefreshAt prev ≠ lastRefreshAt curr)
      && bool_decide (replayQueryTime curr = 0))
  || bool_decide (replayQueryTime prev ≠ replayQueryTime curr)
  || bool_decide (showServiceNodes prev ≠ showServiceNodes curr)
  || bool_decide (showSecurity prev ≠ showSecurity curr)
  || bool_decide (showUnusedNodes prev ≠ showUnusedNodes curr)
  || isNodeChanged (node prev) (node curr).

(** ** Requests and effects *)

Module Fetch.
(** The argument of [GraphDataSource.fetchGraphData]. *)
Record Params := {
  namespaces : list Namespace;
  duration : Z;
  graphType : GraphType;
  injectServiceNodes : bool;
  edgeLabelMode : EdgeLabelMode;
  showSecurity : bool;
  showUnusedNodes : bool;
  node : option NodeObj;
  queryTime : option Z
}.
End Fetch.

(** Calls made to the collaborators of the component. *)
Inductive Call :=
  | SetNode (n : option NodeObj)
  | GraphChanged
  | FetchGraphData (p : Fetch.Params)
  | On (event : string)
  | UnsetFocusSelector
  | CleanError
  | EndTour.

Record World := {
  store_node : option NodeObj;
  focusSelector : option string;
  next_addr : loc;
  calls : list Call
}.

Definition call (c : Call) (w : World) : World :=
  {| store_node := store_node w; focusSelector := focusSelector w;
     next_addr := next_addr w; calls := calls w ++ [c] |}.

(** Modelled from the spec: the reducers behind [props.graphChanged] and
    [props.endTour] are not among the sources.  By the spec the focused
    node is "superseded whenever navigation or user interaction selects a
    different node" and the shared state is "mutated only through explicit
    setter calls the controller invokes"; so these two dispatches are
    recorded in the trace and leave the stored node as it is. *)
Definition dispatch (c : Call) (w : World) : World := call c w.

(** Modelled from the spec: the action [GraphActions.setNode] and its
    reducer are not among the sources; [props.setNode] is the setter that
    updates the stored focused node, read back as
    [store.getState().graph.node]. *)
Definition setNode (n : option NodeObj) (w : World) : World :=
  call (SetNode n)
    {| store_node := n; focusSelector := focusSelector w;
       next_addr := next_addr w; calls := calls w |}.

Definition set_focusSelector (f : option string) (w : World) : World :=
  {| store_node := store_node w; focusSelector := f;
     next_addr := next_addr w; calls := calls w |}.

(** The address of a returned object literal is used up. *)
Definition allocated (o : option NodeObj) (w : World) : World :=
  match o with
  | Some _ =>
      {| store_node := store_node w; focusSelector := focusSelector w;
         next_addr := S (next_addr w); calls := calls w |}
  | None => w
  end.

(** The request built by [loadGraphDataFromBackend] from [this.props]. *)
Definition fetchParams (props : GraphPageProps) : Fetch.Params :=
  let queryTime :=
    if bool_decide (replayQueryTime props ≠ 0)
    then Some (replayQueryTime props) else None in
  {| Fetch.namespaces :=
       match node props with
       | Some n => [namespace (fields n)]
       | None => activeNamespaces props
       end;
     Fetch.duration := duration props;
     Fetch.graphType := graphType props;
     Fetch.injectServiceNodes := showServiceNodes props;
     Fetch.edgeLabelMode := edgeLabelMode props;
     Fetch.showSecurity := showSecurity props;
     Fetch.showUnusedNodes := showUnusedNodes props;
     Fetch.node := node props;
     Fetch.queryTime := queryTime |}.

Definition loadGraphDataFromBackend (props : GraphPageProps) (w : World)
  : World :=
  call (FetchGraphData (fetchParams props)) w.

(** [constructor]; [focus] is the result of [getFocusSelector()]. *)
Definition constructor (props : GraphPageProps) (focus : option string)
    (w : World) : World :=
  let w := set_focusSelector focus w in
  let urlNode := getNodeParamsFromProps (next_addr w) (match_params props) in
  let w := allocated urlNode w in
  if isNodeChanged urlNode (node props) then setNode urlNode w else w.

(** [componentDidMount]; [this.props] are still the props of the
    constructor. *)
Definition componentDidMount (props : GraphPageProps) (w : World) : World :=
  let w :=
    if negb (node_truthy (store_node w))
    then loadGraphDataFromBackend props w else w in
  call (On "emptyNamespaces")
    (call (On "fetchSuccess") (call (On "fetchError") (call (On "loadStart") w))).

(** [!!this.focusSelector]. *)
Definition focus_truthy (f : option string) : bool :=
  match f with Some s => bool_decide (s ≠ "") | None => false end.

(** [componentDidUpdate(prev)], with [curr = this.props]. *)
Definition componentDidUpdate (prev curr : GraphPageProps) (w : World)
  : World :=
  let activeNamespacesChanged := activeNamespacesChanged prev curr in
  let w := if activeNamespacesChanged then dispatch GraphChanged w else w in
  let w := if shouldRefetch prev curr
           then loadGraphDataFromBackend curr w else w in
  let w := if focus_truthy (focusSelector w)
           then call UnsetFocusSelector (set_focusSelector None w) else w in
  let w := if bool_decide (layoutName prev ≠ layoutName curr)
              || activeNamespacesChanged
           then call CleanError w else w in
  if showLegend curr && activeTour curr then dispatch EndTour w else w.

(** [mapStateToProps] for the focused node: the props of the next render
    carry the node of the store. *)
Definition with_node (n : option NodeObj) (p : GraphPageProps)
  : GraphPageProps :=
  {| match_params := match_params p; activeNamespaces := activeNamespaces p;
     activeTour := activeTour p; duration := duration p;
     edgeLabelMode := edgeLabelMode p; graphType := graphType p;
     lastRefreshAt := lastRefreshAt p; layoutName := layoutName p;
     node := n; replayQueryTime := replayQueryTime p;
     showLegend := showLegend p; showSecurity := showSecurity p;
     showServiceNodes := showServiceNodes p;
     showUnusedNodes := showUnusedNodes p |}.

Definition with_activeNamespaces (ns : list Namespace) (p : GraphPageProps)
  : GraphPageProps :=
  {| match_params := match_params p; activeNamespaces := ns;
     activeTour := activeTour p; duration := duration p;
     edgeLabelMode := edgeLabelMode p; graphType := graphType p;
     lastRefreshAt := lastRefreshAt p; layoutName := layoutName p;
     node := node p; replayQueryTime := replayQueryTime p;
     showLegend := showLegend p; showSecurity := showSecurity p;
     showServiceNodes := showServiceNodes p;
     showUnusedNodes := showUnusedNodes p |}.

Definition with_edgeLabelMode (m : EdgeLabelMode) (p : GraphPageProps)
  : GraphPageProps :=
  {| match_params := match_params p; activeNamespaces := activeNamespaces p;
     activeTour := activeTour p; duration := duration p;
     edgeLabelMode := m; graphType := graphType p;
     lastRefreshAt := lastRefreshAt p; layoutName := layoutName p;
     node := node p; replayQueryTime := replayQueryTime p;
     showLegend := showLegend p; showSecurity := showSecurity p;
     showServiceNodes := showServiceNodes p;
     showUnusedNodes := showUnusedNodes p |}.

Definition with_lastRefreshAt (t : Z) (p : GraphPageProps)
  : GraphPageProps :=
  {| match_params := match_params p; activeNamespaces := activeNamespaces p;
     activeTour := activeTour p; duration := duration p;
     edgeLabelMode := edgeLabelMode p; graphType := graphType p;
     lastRefreshAt := t; layoutName := layoutName p;
     node := node p; replayQueryTime := replayQueryTime p;
     showLegend := showLegend p; showSecurity := showSecurity p;
     showServiceNodes := showServiceNodes p;
     showUnusedNodes := showUnusedNodes p |}.

(** The requests submitted along a trace, oldest first. *)
Fixpoint fetches (cs : list Call) : list Fetch.Params :=
  match cs with
  | [] => []
  | FetchGraphData p :: cs => p :: fetches cs
  | _ :: cs => fetches cs
  end.

(** ** Vocabulary of the statements *)

(** A raw field is present: it is a non-empty string other than the
    sentinel and other than the literal "undefined". *)
Definition present (x : option string) : Prop :=
  ∃ s, x = Some s ∧ s ≠ "" ∧ s ≠ UNKNOWN ∧ s ≠ "undefined".

(** The five identifying fields on which two nodes can differ. *)
Definition identity_differs (x y : NodeParamsType) : Prop :=
  app x ≠ app y ∨ service x ≠ service y ∨ version x ≠ version y
  ∨ nodeType x ≠ nodeType y ∨ workload x ≠ workload y.

(** The two values of a comparison come from one heap. *)
Definition one_heap (prevNode node : option NodeObj) : Prop :=
  ∀ a b, prevNode = Some a → node = Some b → same_heap a b.

(** A node populated per its kind, each kind carrying the name of its own
    entity. *)
Definition populated_per_kind (x : NodeParamsType) : Prop :=
  match nodeType x with
  | APP => present (app x)
  | WORKLOAD => present (workload x)
  | SERVICE => present (service x)
  end.

(** The two snapshots name the same set of active namespaces. *)
Definition same_names (prev curr : GraphPageProps) : Prop :=
  ∀ x, x ∈ name <$> activeNamespaces prev
       ↔ x ∈ name <$> activeNamespaces curr.

(** One snapshot is a copy of the other: equal field by field, the focused
    node possibly rebuilt as another object with the same fields. *)
Definition copy_of (p q : GraphPageProps) : Prop :=
  ∃ n, q = with_node n p
       ∧ option_Forall2 (λ a b, fields a = fields b) (node p) n.

(** The world in which the component is constructed: [mapStateToProps]
    gives [props.node] the node of the store; nothing has been called
    yet. *)
Definition initial_world (props : GraphPageProps) (next : loc) : World :=
  {| store_node := node props; focusSelector := None;
     next_addr := next; calls := [] |}.

(** ** Inputs of the scenarios *)

(** A path with a namespace and nothing else. *)
Definition namespace_only : URL.GraphURLPathProps :=
  {| URL.app := None; URL.namespace := Some "bookinfo";
     URL.service := None; URL.version := None; URL.workload := None |}.

(** The path of the reviews workload in namespace bookinfo. *)
Definition reviews_workload : URL.GraphURLPathProps :=
  {| URL.app := None; URL.namespace := Some "bookinfo";
     URL.service := None; URL.version := None;
     URL.workload := Some "reviews" |}.

(** The reviews workload of namespace [ns], as an object at [l]. *)
Definition reviews_in (ns : string) (l : loc) : NodeObj :=
  {| addr := l;
     fields := {| app := None; namespace := {| name := Some ns |};
                  nodeType := WORKLOAD; service := None;
                  version := None; workload := Some "reviews" |} |}.

(** The snapshot of the scenarios: namespace bookinfo, sixty seconds, no
    focused node, not replaying. *)
Definition bookinfo_props : GraphPageProps :=
  {| match_params :=
       {| URL.app := None; URL.namespace := None; URL.service := None;
          URL.version := None; URL.workload := None |};
     activeNamespaces := [ {| name := Some "bookinfo" |} ];
     activeTour := false;
     duration := 60;
     edgeLabelMode := OTHER_EDGE_LABEL_MODE "requestsPerSecond";
     graphType := GRAPH_TYPE "versionedApp";
     lastRefreshAt := 1000;
     layoutName := "dagre";
     node := None;
     replayQueryTime := 0;
     showLegend := false;
     showSecurity := false;
     showServiceNodes := true;
     showUnusedNodes := false |}.

(** The reviews workload is focused and the URL names it too. *)
Definition reviews_props : GraphPageProps :=
  {| match_params := reviews_workload;
     activeNamespaces := [ {| name := Some "bookinfo" |} ];
     activeTour := false;
     duration := 60;
     edgeLabelMode := OTHER_EDGE_LABEL_MODE "requestsPerSecond";
     graphType := GRAPH_TYPE "versionedApp";
     lastRefreshAt := 1000;
     layoutName := "dagre";
     node := Some (reviews_in "bookinfo" 0);
     replayQueryTime := 0;
     showLegend := false;
     showSecurity := false;
     showServiceNodes := true;
     showUnusedNodes := false |}.

(** * The rest of the sources *)

From Stdlib Require Import Ascii.

(** ** Runs of updates, unmounting *)

#[global] Instance Fetch_Params_eq_dec : EqDecision Fetch.Params.
Proof. solve_decision. Defined.

#[global] Instance Call_eq_dec : EqDecision Call.
Proof. solve_decision. Defined.

(** Successive renders: [componentDidUpdate] runs once per new props, each
    time against the props of the render before. *)
Fixpoint run_updates (prev : GraphPageProps) (nexts : list GraphPageProps)
    (w : World) : World :=
  match nexts with
  | [] => w
  | curr :: nexts => run_updates curr nexts (componentDidUpdate prev curr w)
  end.

(** The requests of the transitions of a run that satisfy the refetch
    condition, oldest first. *)
Fixpoint triggered (prev : GraphPageProps) (nexts : list GraphPageProps)
  : list Fetch.Params :=
  match nexts with
  | [] => []
  | curr :: nexts =>
      (if shouldRefetch prev curr then [fetchParams curr] else [])
        ++ triggered curr nexts
  end.

(** How often [c] was called along a trace. *)
Definition times (c : Call) (cs : list Call) : nat :=
  length (filter (λ d, d = c) cs).

(** The events subscribed to along a trace, oldest first. *)
Fixpoint subscribed (cs : list Call) : list string :=
  match cs with
  | [] => []
  | On event :: cs => event :: subscribed cs
  | _ :: cs => subscribed cs
  end.

(** [handleEmptyGraphAction]. *)
Definition handleEmptyGraphAction (props : GraphPageProps) (w : World)
  : World :=
  loadGraphDataFromBackend props w.

(** [componentWillUnmount]: the events passed to
    [graphDataSource.removeListener], in the order of the calls; the
    listener is [this.handleGraphDataSourceUpdate] each time, as in
    [componentDidMount]. *)
Definition componentWillUnmount : list string :=
  ["loadStart"; "fetchError"; "fetchSuccess"; "emptyNamespaces"].

(** Two nodes that [isNodeChanged] does not tell apart. *)
Definition unchanged (m n : option NodeObj) : Prop :=
  isNodeChanged m n = false.

(** ** What [render] shows *)

Module Render.

(** The state of the [GraphDataSource] that [render] reads: [nodes] is the
    number of keys of [graphData.nodes], when that is defined. *)
Record GraphDataSource := {
  nodes : option nat;
  isError : bool;
  isLoading : bool;
  graphTimestamp : Z;
  graphDuration : Z
}.

(** What [render] reads besides the props of the lifecycle methods;
    [summaryData] tells whether [props.summaryData] is set and [kiosk] is
    the result of [isKioskMode()]. *)
Record Input := {
  props : GraphPageProps;
  replayActive : bool;
  summaryData : bool;
  mtlsEnabled : bool;
  isPageVisible : bool;
  kiosk : bool;
  dataSource : GraphDataSource
}.

(** The texts of the chip: the literal "click Play to start", or the string
    that the call [this.displayTimeRange()] returns. *)
Inductive ChipText :=
  | ClickPlayToStart
  | DisplayTimeRange.

Record Chip := {
  replayBackground : bool;
  badge : bool;
  text : list ChipText
}.

Module SummaryPanel.
(** The props handed to [SummaryPanel], without the rate parameters
    computed by [computePrometheusRateParams]. *)
Record Props := {
  namespaces : list Namespace;
  graphType : GraphType;
  injectServiceNodes : bool;
  queryTime : Z;
  duration : Z;
  isPageVisible : bool
}.
End SummaryPanel.

(** The conditional parts of the rendered tree: [legend] and [graph] carry
    the [isMTLSEnabled] they are given. *)
Record View := {
  kioskContainer : bool;
  toolbarDisabled : bool;
  replayBorder : bool;
  legend : option bool;
  chip : option Chip;
  graph : option bool;
  cytoscapeToolbar : bool;
  summaryPanel : option SummaryPanel.Props
}.

(** [render]. *)
Definition render (i : Input) : View :=
  let ds := dataSource i in
  let isReady :=
    match nodes ds with
    | Some keys => bool_decide (0 < keys)%nat && negb (isError ds)
    | None => false
    end in
  let isReplayReady :=
    replayActive i && bool_decide (replayQueryTime (props i) ≠ 0) in
  {| kioskContainer := kiosk i;
     toolbarDisabled := isLoading ds;
     replayBorder := replayActive i;
     legend := if showLegend (props i) then Some (mtlsEnabled i) else None;
     chip :=
       if isReady
       then Some
         {| replayBackground := replayActive i;
            badge := replayActive i;
            text :=
              (if negb isReplayReady && replayActive i
               then [ClickPlayToStart] else [])
              ++ (if negb isReplayReady && negb (replayActive i)
                  then [DisplayTimeRange] else [])
              ++ (if isReplayReady then [DisplayTimeRange] else []) |}
       else None;
     graph :=
       if negb (replayActive i) || isReplayReady
       then Some (mtlsEnabled i) else None;
     cytoscapeToolbar := isReady;
     summaryPanel :=
       if summaryData i
       then Some
         {| SummaryPanel.namespaces := activeNamespaces (props i);
            SummaryPanel.graphType := graphType (props i);
            SummaryPanel.injectServiceNodes := showServiceNodes (props i);
            SummaryPanel.queryTime := graphTimestamp ds;
            SummaryPanel.duration := graphDuration ds;
            SummaryPanel.isPageVisible := isPageVisible i |}
       else None |}.

End Render.

(** ** The list page: [VirtualList] *)

Module VirtualList.

(** The class [[a-z0-9-]]. *)
Definition in_class (c : ascii) : bool :=
  let n := nat_of_ascii c in
  ((97 <=? n) && (n <=? 122) || (48 <=? n) && (n <=? 57) || (n =? 45))%nat.

(** The longest prefix made of characters of the class. *)
Fixpoint class_run (s : string) : string :=
  match s with
  | String c s' => if in_class c then String c (class_run s') else ""
  | "" => ""
  end.

(** Every character of the string is of the class. *)
Fixpoint all_class (s : string) : bool :=
  match s with
  | String c s' => in_class c && all_class s'
  | "" => true
  end.

(** [pathname.match(listRegex)] with [listRegex = /\/([a-z0-9-]+)/]: the
    group captured by the leftmost match, [None] when nothing matches. *)
Fixpoint listRegex (pathname : string) : option string :=
  match pathname with
  | String c s' =>
      if bool_decide (c = "/"%char)
      then match class_run s' with
           | "" => listRegex s'
           | group => Some group
           end
      else listRegex s'
  | "" => None
  end.

(** [const match = ... || []; const type = match[1] || '']. *)
Definition list_type (pathname : string) : string :=
  default "" (listRegex pathname).

(** What the class reads of an entry of [conf.columns] and of [conf]. *)
Record ResourceType := {
  param : option string;
  column : string;
  transforms : option (list string)
}.

Record Resource := {
  columns : list ResourceType;
  caption : option string
}.

(** A cell of the table header. *)
Record Cell := {
  title : string;
  cell_transforms : option (list string)
}.

Record SortBy := {
  index : Z;
  direction : option string
}.

Record State := {
  type : string;
  sortBy : SortBy;
  state_columns : list Cell;
  conf : Resource
}.

(** Truthiness of a [string | undefined]. *)
Definition truthy (s : option string) : bool :=
  match s with Some s => bool_decide (s ≠ "") | None => false end.

(** [Array.prototype.findIndex]. *)
Definition findIndex {A : Type} (f : A → bool) (l : list A) : Z :=
  match list_find (λ x, f x = true) l with
  | Some (i, _) => Z.of_nat i
  | None => -1
  end.

(** The index computed by the constructor from [sortParam], the value of
    [HistoryManager.getParam(URLParam.SORT)]. *)
Definition sortIndex (conf : Resource) (sortParam : option string) : Z :=
  if truthy sortParam
  then findIndex (λ column, bool_decide (param column = sortParam))
         (columns conf)
  else -1.

(** The constructor.  [config] gives [config[type]], [headerTable] is
    [config.headerTable], [sortParam] and [directionParam] are the two
    values read from [HistoryManager].  [None]: [conf] is undefined and
    reading [conf.columns] throws. *)
Definition constructor (config : string → option Resource)
    (headerTable : bool) (pathname : string)
    (sortParam directionParam : option string) : option State :=
  let type := list_type pathname in
  match config type with
  | None => None
  | Some conf =>
      let columns :=
        if headerTable
        then (λ info, {| title := column info;
                         cell_transforms := transforms info |})
               <$> columns conf
        else [] in
      Some {| type := type;
              sortBy := {| index := sortIndex conf sortParam;
                           direction := directionParam |};
              state_columns := columns;
              conf := conf |}
  end.

Inductive URLParam := DIRECTION | SORT.

(** A call [HistoryManager.setParam(key, value)]. *)
Record SetParam := { key : URLParam; value : string }.

(** [conf.columns[index]]: undefined outside the array. *)
Definition column_at (conf : Resource) (index : Z) : option ResourceType :=
  if bool_decide (0 ≤ index)%Z then columns conf !! Z.to_nat index else None.

(** [String(x)] of a [string | undefined]. *)
Definition String_of (x : option string) : string := default "undefined" x.

(** [onSort]: the state it sets, the parameters it writes, oldest first,
    and whether it returns ([false]: reading [param] of an undefined
    column throws). *)
Definition onSort (index : Z) (direction : option string) (st : State)
  : State * list SetParam * bool :=
  let st' := {| type := type st;
                sortBy := {| index := index; direction := direction |};
                state_columns := state_columns st;
                conf := conf st |} in
  let written :=
    match direction with
    | Some d => if bool_decide (d ≠ "")
                then [ {| key := DIRECTION; value := d |} ] else []
    | None => []
    end in
  match column_at (conf st) index with
  | Some c =>
      (st', written ++ [ {| key := SORT; value := String_of (param c) |} ],
       true)
  | None => (st', written, false)
  end.

End VirtualList.

(** ** The slider's boundaries: [Boundaries] *)

Module Boundaries.

Section Elements.

(** The elements handed in as [slider] and [children]. *)
Variable Element : Type.

(** What the [div] holds: a bold number, or an element handed in. *)
Inductive Child :=
  | Bold (n : Z)
  | Given (e : Element).

Record BoundariesProps := {
  children : list Element;
  min : Z;
  max : Z;
  reversed : bool;
  showBoundaries : bool;
  slider : option Element
}.

(** [render]: the children of the [div], in order; [null] and an
    undefined [slider] render nothing. *)
Definition render (p : BoundariesProps) : list Child :=
  let minElement := Bold (min p) in
  let maxElement := Bold (max p) in
  let '(leftBoundary, rightBoundary) :=
    if showBoundaries p
    then if reversed p
         then (Some maxElement, Some minElement)
         else (Some minElement, Some maxElement)
    else (None, None) in
  option_list leftBoundary
    ++ option_list (Given <$> slider p)
    ++ option_list rightBoundary
    ++ (Given <$> children p).

(** The same props with [reversed] negated, and with [min] and [max]
    exchanged. *)
Definition flip_reversed (p : BoundariesProps) : BoundariesProps :=
  {| children := children p; min := min p; max := max p;
     reversed := negb (reversed p); showBoundaries := showBoundaries p;
     slider := slider p |}.

Definition swap_bounds (p : BoundariesProps) : BoundariesProps :=
  {| children := children p; min := max p; max := min p;
     reversed := reversed p; showBoundaries := showBoundaries p;
     slider := slider p |}.

End Elements.

End Boundaries.

(** * Properties *)

(** ** NodeSelector: [getNodeParamsFromProps] and [isNodeChanged] *)

Lemma paramOk_present (x : option string) : paramOk x = true ↔ present x.
Proof.
  unfold paramOk, present. destruct x as [s|].
  - rewrite !andb_true_iff, !bool_decide_eq_true. split.
    + intros [[H1 H2] H3]. by exists s.
    + intros (s' & [= <-] & H1 & H2 & H3). done.
  - split; [done | by intros (s & ? & _)].
Qed.

Lemma paramOk_absent (x : option string) : paramOk x = false ↔ ¬ present x.
Proof. rewrite <- paramOk_present. by destruct (paramOk x). Qed.

Lemma identity_differs_dec (x y : NodeParamsType) :
  bool_decide (app x ≠ app y) || bool_decide (service x ≠ service y)
    || bool_decide (version x ≠ version y)
    || bool_decide (workload x ≠ workload y)
    || bool_decide (nodeType x ≠ nodeType y) = true
  ↔ identity_differs x y.
Proof.
  unfold identity_differs.
  rewrite !orb_true_iff, !bool_decide_eq_true. tauto.
Qed.

Lemma isNodeChanged_objects (a b : NodeObj) :
  isNodeChanged (Some a) (Some b) = true
  ↔ addr a ≠ addr b ∧ identity_differs (fields a) (fields b).
Proof.
  unfold isNodeChanged; simpl. case_bool_decide as Haddr; simpl.
  - split; [done | by intros [? _]].
  - rewrite identity_differs_dec. tauto.
Qed.

Lemma isNodeChanged_same_fields (a b : NodeObj) :
  app (fields a) = app (fields b) →
  service (fields a) = service (fields b) →
  version (fields a) = version (fields b) →
  nodeType (fields a) = nodeType (fields b) →
  workload (fields a) = workload (fields b) →
  isNodeChanged (Some a) (Some b) = false.
Proof.
  intros Ha Hs Hv Ht Hw. apply not_true_iff_false.
  rewrite isNodeChanged_objects. unfold identity_differs. tauto.
Qed.

Lemma isNodeChanged_refl (n : option NodeObj) : isNodeChanged n n = false.
Proof.
  destruct n as [a|]; [|done]. by apply isNodeChanged_same_fields.
Qed.

Lemma isNodeChanged_sym (m n : option NodeObj) :
  isNodeChanged m n = isNodeChanged n m.
Proof.
  destruct m as [a|], n as [b|]; try done.
  apply eq_true_iff_eq. rewrite !isNodeChanged_objects.
  unfold identity_differs. split; intros [? ?]; split; try congruence;
    intuition congruence.
Qed.

(** C5.  [isNodeChanged]: the same reference gives false; one value present
    and the other absent gives true, either way round; both absent gives
    false; two present values of one heap give true exactly when one of
    app, service, version, nodeType, workload differs; and two distinct
    objects with equal fields give false. *)
Theorem isNodeChanged_spec (prevNode node : option NodeObj) :
  (∀ a b, prevNode = Some a → node = Some b → addr a = addr b →
     isNodeChanged prevNode node = false)
  ∧ (∀ a, prevNode = Some a → node = None →
       isNodeChanged prevNode node = true)
  ∧ (∀ b, prevNode = None → node = Some b →
       isNodeChanged prevNode node = true)
  ∧ (prevNode = None → node = None → isNodeChanged prevNode node = false)
  ∧ (∀ a b, prevNode = Some a → node = Some b → same_heap a b →
       (isNodeChanged prevNode node = true
        ↔ identity_differs (fields a) (fields b)))
  ∧ (∀ a b, prevNode = Some a → node = Some b →
       addr a ≠ addr b → fields a = fields b →
       isNodeChanged prevNode node = false).
Proof.
  split; [|split; [|split; [|split; [|split]]]].
  - intros a b -> -> Haddr. apply not_true_iff_false.
    rewrite isNodeChanged_objects. tauto.
  - by intros a -> ->.
  - by intros b -> ->.
  - by intros -> ->.
  - intros a b -> -> Hheap. rewrite isNodeChanged_objects.
    split; [tauto|]. intros Hd. split; [|done].
    intros Haddr. specialize (Hheap Haddr).
    unfold identity_differs in Hd. rewrite Hheap in Hd. tauto.
  - intros a b -> -> _ Hf. apply isNodeChanged_same_fields; by rewrite Hf.
Qed.

Lemma isNodeChanged_spec_witness :
  let a := {| addr := 1%nat;
              fields := {| app := Some "reviews";
                           namespace := {| name := Some "bookinfo" |};
                           nodeType := APP; service := None;
                           version := Some "v1"; workload := None |} |} in
  let b := {| addr := 2%nat; fields := fields a |} in
  let c := {| addr := 2%nat;
              fields := {| app := Some "ratings";
                           namespace := {| name := Some "bookinfo" |};
                           nodeType := APP; service := None;
                           version := Some "v1"; workload := None |} |} in
  isNodeChanged (Some a) (Some b) = false
  ∧ isNodeChanged (Some a) None = true
  ∧ isNodeChanged None (Some a) = true
  ∧ (same_heap a c ∧ isNodeChanged (Some a) (Some c) = true).
Proof.
  intros a b c.
  destruct (isNodeChanged_spec (Some a) (Some b)) as (_ & _ & _ & _ & _ & Hab).
  destruct (isNodeChanged_spec (Some a) None) as (_ & Hpresent & _).
  destruct (isNodeChanged_spec None (Some a)) as (_ & _ & Habsent & _).
  destruct (isNodeChanged_spec (Some a) (Some c)) as (_ & _ & _ & _ & Hac & _).
  assert (Hheap : same_heap a c) by (intros Haddr; simpl in Haddr; lia).
  split; [apply (Hab a b eq_refl eq_refl); [simpl; lia | reflexivity]|].
  split; [exact (Hpresent a eq_refl eq_refl)|].
  split; [exact (Habsent a eq_refl eq_refl)|].
  split; [exact Hheap|].
  apply (Hac a c eq_refl eq_refl Hheap). left. simpl. congruence.
Defined.

Ltac param_cases params :=
  unfold getNodeParamsFromProps;
  destruct (paramOk (URL.app params)) eqn:Happ;
  destruct (paramOk (URL.namespace params)) eqn:Hnamespace;
  destruct (paramOk (URL.service params)) eqn:Hservice;
  destruct (paramOk (URL.workload params)) eqn:Hworkload;
  simpl;
  rewrite ?paramOk_present, ?paramOk_absent in *.

(** C6.  A raw field passes the test of [getNodeParamsFromProps] iff it is
    non-empty, not the "unknown" sentinel and not the string "undefined";
    the result is absent exactly when none of app, namespace, service,
    workload is present; otherwise, when app or workload is present, the
    node type is APP if app is present and WORKLOAD if not, and the version
    is the one of the input; in the remaining case the node type is SERVICE
    and the version is the empty string. *)
Theorem getNodeParamsFromProps_spec
    (fresh : loc) (params : URL.GraphURLPathProps) :
  (∀ x, paramOk x = true
        ↔ ∃ s, x = Some s ∧ s ≠ "" ∧ s ≠ UNKNOWN ∧ s ≠ "undefined")
  ∧ (getNodeParamsFromProps fresh params = None
     ↔ ¬ present (URL.app params) ∧ ¬ present (URL.namespace params)
       ∧ ¬ present (URL.service params) ∧ ¬ present (URL.workload params))
  ∧ (∀ n, getNodeParamsFromProps fresh params = Some n →
       (present (URL.app params) →
        nodeType (fields n) = APP
        ∧ version (fields n) = URL.version params)
       ∧ (¬ present (URL.app params) → present (URL.workload params) →
          nodeType (fields n) = WORKLOAD
          ∧ version (fields n) = URL.version params)
       ∧ (¬ present (URL.app params) → ¬ present (URL.workload params) →
          nodeType (fields n) = SERVICE ∧ version (fields n) = Some "")).
Proof.
  split; [exact paramOk_present|]. split.
  - param_cases params; intuition congruence.
  - intros n. param_cases params; intros [= <-]; simpl; tauto.
Qed.

(** The raw path variables are stored in the node as they come. *)
Lemma getNodeParamsFromProps_fields
    (fresh : loc) (params : URL.GraphURLPathProps) (n : NodeObj) :
  getNodeParamsFromProps fresh params = Some n →
  addr n = fresh
  ∧ app (fields n) = URL.app params
  ∧ name (namespace (fields n)) = URL.namespace params
  ∧ service (fields n) = URL.service params
  ∧ workload (fields n) = URL.workload params.
Proof. param_cases params; by intros [= <-]. Qed.

(** C8 (as amended).  A result of [getNodeParamsFromProps] of type APP
    carries a present app, one of type WORKLOAD carries a present workload,
    and one of type SERVICE carries a present service or a present
    namespace name, and neither a present app nor a present workload. *)
Theorem getNodeParamsFromProps_populated
    (fresh : loc) (params : URL.GraphURLPathProps) (n : NodeObj) :
  getNodeParamsFromProps fresh params = Some n →
  match nodeType (fields n) with
  | APP => present (app (fields n))
  | WORKLOAD => present (workload (fields n))
  | SERVICE =>
      (present (service (fields n)) ∨ present (name (namespace (fields n))))
      ∧ ¬ present (app (fields n)) ∧ ¬ present (workload (fields n))
  end.
Proof. param_cases params; intros [= <-]; simpl; tauto. Qed.

Lemma getNodeParamsFromProps_populated_witness :
  getNodeParamsFromProps 0 namespace_only
  = Some {| addr := 0%nat;
            fields := {| app := None;
                         namespace := {| name := Some "bookinfo" |};
                         nodeType := SERVICE; service := None;
                         version := Some ""; workload := None |} |}
  ∧ ((present None ∨ present (Some "bookinfo"))
     ∧ ¬ present None ∧ ¬ present None).
Proof.
  split; [reflexivity|].
  exact (getNodeParamsFromProps_populated 0 namespace_only _ eq_refl).
Defined.

(** C8 (as stated) fails: a path with a namespace and nothing else yields a
    node of type SERVICE whose service is undefined. *)
Lemma getNodeParamsFromProps_service_unpopulated :
  ¬ (∀ fresh params n,
       getNodeParamsFromProps fresh params = Some n →
       populated_per_kind (fields n)).
Proof.
  intros H.
  specialize (H 0%nat namespace_only _ eq_refl).
  unfold populated_per_kind in H; simpl in H.
  by destruct H as (s & ? & _).
Qed.

(** The same path read twice gives two objects with equal fields, which
    [isNodeChanged] takes for unchanged. *)
Lemma getNodeParamsFromProps_twice
    (l1 l2 : loc) (params : URL.GraphURLPathProps) :
  isNodeChanged (getNodeParamsFromProps l1 params)
    (getNodeParamsFromProps l2 params) = false.
Proof.
  param_cases params; try done; by apply isNodeChanged_same_fields.
Qed.

Example getNodeParamsFromProps_reviews :
  getNodeParamsFromProps 7 reviews_workload = Some (reviews_in "bookinfo" 7).
Proof. reflexivity. Qed.

Example getNodeParamsFromProps_sentinels :
  getNodeParamsFromProps 7
    {| URL.app := Some "unknown"; URL.namespace := Some "undefined";
       URL.service := Some ""; URL.version := Some "v1";
       URL.workload := None |} = None.
Proof. reflexivity. Qed.

Example getNodeParamsFromProps_app_over_workload :
  nodeType <$> (fields <$> getNodeParamsFromProps 7
    {| URL.app := Some "reviews"; URL.namespace := Some "bookinfo";
       URL.service := None; URL.version := Some "v1";
       URL.workload := Some "reviews-v1" |}) = Some APP.
Proof. reflexivity. Qed.

(** ** GraphParamsTracker: the refetch condition *)

Lemma arrayEquals_by_key {T K : Type} `{EqDecision K}
    (f : T → K) (a1 a2 : list T) :
  arrayEquals a1 a2 (λ v1 v2, bool_decide (f v1 = f v2)) = true
  ↔ ∀ k, k ∈ f <$> a1 ↔ k ∈ f <$> a2.
Proof.
  unfold arrayEquals. rewrite andb_true_iff, !forallb_forall.
  setoid_rewrite existsb_exists. setoid_rewrite bool_decide_eq_true.
  setoid_rewrite list_elem_of_fmap. setoid_rewrite <- list_elem_of_In.
  split.
  - intros [H12 H21] k. split; intros (y & -> & Hy).
    + destruct (H12 y Hy) as (z & Hz & Heq). eauto.
    + destruct (H21 y Hy) as (z & Hz & Heq). eauto.
  - intros H. split; intros x Hx.
    + destruct (proj1 (H (f x))) as (z & Heq & Hz); eauto.
    + destruct (proj2 (H (f x))) as (z & Heq & Hz); eauto.
Qed.

Lemma activeNamespacesChanged_iff (prev curr : GraphPageProps) :
  activeNamespacesChanged prev curr = true ↔ ¬ same_names prev curr.
Proof.
  unfold activeNamespacesChanged, same_names.
  rewrite negb_true_iff, <- not_true_iff_false.
  by rewrite arrayEquals_by_key.
Qed.

Lemma activeNamespacesChanged_same (prev curr : GraphPageProps) :
  same_names prev curr → activeNamespacesChanged prev curr = false.
Proof.
  intros H. apply not_true_iff_false.
  rewrite activeNamespacesChanged_iff. tauto.
Qed.

Lemma shouldRefetch_iff (prev curr : GraphPageProps) :
  shouldRefetch prev curr = true
  ↔ ¬ same_names prev curr
    ∨ duration prev ≠ duration curr
    ∨ (edgeLabelMode prev ≠ edgeLabelMode curr
       ∧ edgeLabelMode curr = RESPONSE_TIME_95TH_PERCENTILE)
    ∨ graphType prev ≠ graphType curr
    ∨ (lastRefreshAt prev ≠ lastRefreshAt curr ∧ replayQueryTime curr = 0)
    ∨ replayQueryTime prev ≠ replayQueryTime curr
    ∨ showServiceNodes prev ≠ showServiceNodes curr
    ∨ showSecurity prev ≠ showSecurity curr
    ∨ showUnusedNodes prev ≠ showUnusedNodes curr
    ∨ isNodeChanged (node prev) (node curr) = true.
Proof.
  unfold shouldRefetch.
  rewrite !orb_true_iff, !andb_true_iff, !bool_decide_eq_true.
  rewrite activeNamespacesChanged_iff. tauto.
Qed.

(** A snapshot against one that differs in nothing but the focused node,
    the edge label mode and the time of the last refresh: the remaining
    triggers are silent. *)
Lemma shouldRefetch_same_rest (prev curr : GraphPageProps) :
  same_names prev curr →
  duration prev = duration curr →
  graphType prev = graphType curr →
  replayQueryTime prev = replayQueryTime curr →
  showServiceNodes prev = showServiceNodes curr →
  showSecurity prev = showSecurity curr →
  showUnusedNodes prev = showUnusedNodes curr →
  shouldRefetch prev curr
  = (bool_decide (edgeLabelMode prev ≠ edgeLabelMode curr)
     && bool_decide (edgeLabelMode curr = RESPONSE_TIME_95TH_PERCENTILE))
    || (bool_decide (lastRefreshAt prev ≠ lastRefreshAt curr)
        && bool_decide (replayQueryTime curr = 0))
    || isNodeChanged (node prev) (node curr).
Proof.
  intros Hn Hd Hg Hr Hs1 Hs2 Hs3. unfold shouldRefetch.
  rewrite (activeNamespacesChanged_same _ _ Hn).
  rewrite (bool_decide_eq_false_2 (duration prev ≠ duration curr)) by tauto.
  rewrite (bool_decide_eq_false_2 (graphType prev ≠ graphType curr))
    by tauto.
  rewrite (bool_decide_eq_false_2
             (replayQueryTime prev ≠ replayQueryTime curr)) by tauto.
  rewrite (bool_decide_eq_false_2
             (showServiceNodes prev ≠ showServiceNodes curr)) by tauto.
  rewrite (bool_decide_eq_false_2 (showSecurity prev ≠ showSecurity curr))
    by tauto.
  rewrite (bool_decide_eq_false_2
             (showUnusedNodes prev ≠ showUnusedNodes curr)) by tauto.
  simpl. by rewrite !orb_false_r.
Qed.

Lemma same_names_refl (p : GraphPageProps) : same_names p p.
Proof. by intros x. Qed.

Lemma fetches_app (cs ds : list Call) :
  fetches (cs ++ ds) = fetches cs ++ fetches ds.
Proof.
  induction cs as [|c cs IH]; [done|].
  destruct c; simpl; by rewrite ?IH.
Qed.

Lemma componentDidUpdate_fetches (prev curr : GraphPageProps) (w : World) :
  fetches (calls (componentDidUpdate prev curr w))
  = fetches (calls w)
    ++ (if shouldRefetch prev curr then [fetchParams curr] else []).
Proof.
  unfold componentDidUpdate, loadGraphDataFromBackend, dispatch.
  destruct w as [stored [f|] next cs];
    destruct (activeNamespacesChanged prev curr), (shouldRefetch prev curr),
      (bool_decide (layoutName prev ≠ layoutName curr)),
      (showLegend curr), (activeTour curr);
    simpl; try destruct (bool_decide (f ≠ ""));
    simpl; rewrite ?fetches_app; simpl; by rewrite ?app_nil_r.
Qed.

Lemma with_node_id (p : GraphPageProps) : with_node (node p) p = p.
Proof. by destruct p. Qed.

Lemma copy_of_refl (p : GraphPageProps) : copy_of p p.
Proof.
  exists (node p). split; [by rewrite with_node_id|].
  destruct (node p); by constructor.
Qed.

Lemma shouldRefetch_copy (p q : GraphPageProps) :
  copy_of p q → shouldRefetch p q = false.
Proof.
  intros (n & -> & Hn).
  rewrite shouldRefetch_same_rest by (done || apply same_names_refl).
  simpl. rewrite !(bool_decide_eq_false_2 (_ ≠ _)) by tauto. simpl.
  destruct Hn as [a b Hab|]; [|done].
  apply isNodeChanged_same_fields; by rewrite Hab.
Qed.

(** C1.  The condition of [componentDidUpdate] is true iff one of the ten
    triggers holds: the set of namespace names changed, duration changed,
    edgeLabelMode changed to RESPONSE_TIME_95TH_PERCENTILE, graphType
    changed, lastRefreshAt changed while the current replayQueryTime is 0,
    replayQueryTime changed, showServiceNodes, showSecurity or
    showUnusedNodes changed, or [isNodeChanged] holds of the two nodes.
    When it is false the update submits no request; it is false of a
    snapshot against itself and against any copy of itself. *)
Theorem shouldRefetch_spec (prev curr : GraphPageProps) :
  (shouldRefetch prev curr = true
   ↔ ¬ same_names prev curr
     ∨ duration prev ≠ duration curr
     ∨ (edgeLabelMode prev ≠ edgeLabelMode curr
        ∧ edgeLabelMode curr = RESPONSE_TIME_95TH_PERCENTILE)
     ∨ graphType prev ≠ graphType curr
     ∨ (lastRefreshAt prev ≠ lastRefreshAt curr ∧ replayQueryTime curr = 0)
     ∨ replayQueryTime prev ≠ replayQueryTime curr
     ∨ showServiceNodes prev ≠ showServiceNodes curr
     ∨ showSecurity prev ≠ showSecurity curr
     ∨ showUnusedNodes prev ≠ showUnusedNodes curr
     ∨ isNodeChanged (node prev) (node curr) = true)
  ∧ (∀ w, fetches (calls (componentDidUpdate prev curr w))
          = fetches (calls w)
            ++ (if shouldRefetch prev curr then [fetchParams curr] else []))
  ∧ shouldRefetch prev prev = false
  ∧ (∀ copy, copy_of prev copy → shouldRefetch prev copy = false).
Proof.
  split; [apply shouldRefetch_iff|].
  split; [apply componentDidUpdate_fetches|].
  split; [apply shouldRefetch_copy, copy_of_refl|].
  apply shouldRefetch_copy.
Qed.

(** C2.  Two snapshots whose active namespaces hold the same names in a
    different order, and that are equal otherwise, trigger no fetch. *)
Theorem shouldRefetch_namespaces_reordered
    (p : GraphPageProps) (ns : list Namespace) :
  name <$> ns ≡ₚ name <$> activeNamespaces p →
  shouldRefetch p (with_activeNamespaces ns p) = false.
Proof.
  intros Hperm.
  rewrite shouldRefetch_same_rest; try done.
  - simpl. rewrite !(bool_decide_eq_false_2 (_ ≠ _)) by tauto. simpl.
    apply isNodeChanged_refl.
  - intros x. simpl. by rewrite Hperm.
Qed.

Lemma shouldRefetch_namespaces_reordered_witness :
  let a := {| name := Some "a" |} in
  let b := {| name := Some "b" |} in
  name <$> [b; a] ≡ₚ name <$> [a; b]
  ∧ shouldRefetch (with_activeNamespaces [a; b] bookinfo_props)
      (with_activeNamespaces [b; a] bookinfo_props) = false.
Proof.
  intros a b.
  assert (Hperm : name <$> [b; a] ≡ₚ name <$> [a; b]) by apply perm_swap.
  split; [exact Hperm|].
  exact (shouldRefetch_namespaces_reordered
           (with_activeNamespaces [a; b] bookinfo_props) [b; a] Hperm).
Defined.

(** C3.  Two snapshots that differ in edgeLabelMode only: a fetch is
    triggered when the new mode is RESPONSE_TIME_95TH_PERCENTILE and is not
    triggered when it is any other mode. *)
Theorem shouldRefetch_edgeLabelMode_only
    (p : GraphPageProps) (m : EdgeLabelMode) :
  m ≠ edgeLabelMode p →
  (m = RESPONSE_TIME_95TH_PERCENTILE →
   shouldRefetch p (with_edgeLabelMode m p) = true)
  ∧ (m ≠ RESPONSE_TIME_95TH_PERCENTILE →
     shouldRefetch p (with_edgeLabelMode m p) = false).
Proof.
  intros Hm.
  rewrite shouldRefetch_same_rest by (done || apply same_names_refl).
  simpl. rewrite isNodeChanged_refl.
  rewrite (bool_decide_eq_false_2 (lastRefreshAt p ≠ lastRefreshAt p))
    by tauto.
  rewrite (bool_decide_eq_true_2 (edgeLabelMode p ≠ m)) by congruence.
  simpl. rewrite !orb_false_r. split; intros H.
  - by apply bool_decide_eq_true_2.
  - by apply bool_decide_eq_false_2.
Qed.

Lemma shouldRefetch_edgeLabelMode_only_witness :
  RESPONSE_TIME_95TH_PERCENTILE ≠ edgeLabelMode bookinfo_props
  ∧ shouldRefetch bookinfo_props
      (with_edgeLabelMode RESPONSE_TIME_95TH_PERCENTILE bookinfo_props)
    = true.
Proof.
  assert (H : RESPONSE_TIME_95TH_PERCENTILE ≠ edgeLabelMode bookinfo_props)
    by done.
  split; [exact H|].
  exact (proj1 (shouldRefetch_edgeLabelMode_only bookinfo_props _ H) eq_refl).
Defined.

(** C4.  Two snapshots that differ in lastRefreshAt only: a fetch is
    triggered when the current replayQueryTime is 0 and is not triggered
    when it is not 0. *)
Theorem shouldRefetch_lastRefreshAt_only (p : GraphPageProps) (t : Z) :
  t ≠ lastRefreshAt p →
  (replayQueryTime p = 0 →
   shouldRefetch p (with_lastRefreshAt t p) = true)
  ∧ (replayQueryTime p ≠ 0 →
     shouldRefetch p (with_lastRefreshAt t p) = false).
Proof.
  intros Ht.
  rewrite shouldRefetch_same_rest by (done || apply same_names_refl).
  simpl. rewrite isNodeChanged_refl.
  rewrite (bool_decide_eq_false_2 (edgeLabelMode p ≠ edgeLabelMode p))
    by tauto.
  rewrite (bool_decide_eq_true_2 (lastRefreshAt p ≠ t)) by congruence.
  simpl. rewrite orb_false_r. split; intros H.
  - by apply bool_decide_eq_true_2.
  - by apply bool_decide_eq_false_2.
Qed.

Lemma shouldRefetch_lastRefreshAt_only_witness :
  2000 ≠ lastRefreshAt bookinfo_props
  ∧ shouldRefetch bookinfo_props (with_lastRefreshAt 2000 bookinfo_props)
    = true.
Proof.
  assert (H : 2000 ≠ lastRefreshAt bookinfo_props) by (simpl; lia).
  split; [exact H|].
  exact (proj1 (shouldRefetch_lastRefreshAt_only bookinfo_props _ H) eq_refl).
Defined.

Example shouldRefetch_refresh_tick_in_replay :
  shouldRefetch
    {| match_params := reviews_workload; activeNamespaces := [];
       activeTour := false; duration := 60;
       edgeLabelMode := RESPONSE_TIME_95TH_PERCENTILE;
       graphType := GRAPH_TYPE "app"; lastRefreshAt := 1000;
       layoutName := "dagre"; node := None; replayQueryTime := 5000;
       showLegend := false; showSecurity := false;
       showServiceNodes := false; showUnusedNodes := false |}
    {| match_params := reviews_workload; activeNamespaces := [];
       activeTour := false; duration := 60;
       edgeLabelMode := RESPONSE_TIME_95TH_PERCENTILE;
       graphType := GRAPH_TYPE "app"; lastRefreshAt := 2000;
       layoutName := "dagre"; node := None; replayQueryTime := 5000;
       showLegend := false; showSecurity := false;
       showServiceNodes := false; showUnusedNodes := false |} = false.
Proof. reflexivity. Qed.

Example shouldRefetch_leaving_percentile :
  shouldRefetch
    (with_edgeLabelMode RESPONSE_TIME_95TH_PERCENTILE bookinfo_props)
    bookinfo_props = false.
Proof. reflexivity. Qed.

(** C10.  Two present nodes that agree on app, service, version, nodeType
    and workload but not on the name of their namespace are unchanged for
    [isNodeChanged]; two snapshots that differ in nothing but such a pair
    of nodes trigger no fetch. *)
Theorem isNodeChanged_ignores_namespace
    (a b : NodeObj) (p : GraphPageProps) :
  app (fields a) = app (fields b) →
  service (fields a) = service (fields b) →
  version (fields a) = version (fields b) →
  nodeType (fields a) = nodeType (fields b) →
  workload (fields a) = workload (fields b) →
  name (namespace (fields a)) ≠ name (namespace (fields b)) →
  isNodeChanged (Some a) (Some b) = false
  ∧ shouldRefetch (with_node (Some a) p) (with_node (Some b) p) = false.
Proof.
  intros Ha Hs Hv Ht Hw _.
  assert (Hab : isNodeChanged (Some a) (Some b) = false)
    by by apply isNodeChanged_same_fields.
  split; [done|].
  rewrite shouldRefetch_same_rest by (done || apply same_names_refl).
  simpl. rewrite Hab.
  by rewrite !(bool_decide_eq_false_2 (_ ≠ _)) by tauto.
Qed.

Lemma isNodeChanged_ignores_namespace_witness :
  name (namespace (fields (reviews_in "bookinfo" 1)))
    ≠ name (namespace (fields (reviews_in "staging" 2)))
  ∧ isNodeChanged (Some (reviews_in "bookinfo" 1))
      (Some (reviews_in "staging" 2)) = false
  ∧ shouldRefetch (with_node (Some (reviews_in "bookinfo" 1)) bookinfo_props)
      (with_node (Some (reviews_in "staging" 2)) bookinfo_props) = false.
Proof.
  assert (H : name (namespace (fields (reviews_in "bookinfo" 1)))
              ≠ name (namespace (fields (reviews_in "staging" 2))))
    by done.
  split; [exact H|].
  exact (isNodeChanged_ignores_namespace
           (reviews_in "bookinfo" 1) (reviews_in "staging" 2) bookinfo_props
           eq_refl eq_refl eq_refl eq_refl eq_refl H).
Defined.

(** ** RefreshController: requests and start-up *)

Lemma loadGraphDataFromBackend_fetches (props : GraphPageProps) (w : World) :
  fetches (calls (loadGraphDataFromBackend props w))
  = fetches (calls w) ++ [fetchParams props].
Proof. unfold loadGraphDataFromBackend; simpl. by rewrite fetches_app. Qed.

Lemma componentDidMount_fetches (props : GraphPageProps) (w : World) :
  fetches (calls (componentDidMount props w))
  = fetches (calls w)
    ++ (if node_truthy (store_node w) then [] else [fetchParams props]).
Proof.
  unfold componentDidMount, loadGraphDataFromBackend.
  destruct (node_truthy (store_node w)); simpl;
    rewrite !fetches_app; simpl; by rewrite ?app_nil_r.
Qed.

(** C7.  Every request is built by [loadGraphDataFromBackend] from the
    current props: its namespaces are the one namespace of the focused node
    when a node is focused, whatever the active namespaces, and the active
    namespaces otherwise.  Focusing the reviews workload of bookinfo from
    the bookinfo snapshot triggers a fetch whose namespaces are bookinfo
    alone and whose node is the WORKLOAD reviews. *)
Theorem fetchParams_scope (props prev : GraphPageProps) (w : World) :
  fetches (calls (loadGraphDataFromBackend props w))
  = fetches (calls w) ++ [fetchParams props]
  ∧ (∀ r, r ∈ fetches (calls (componentDidUpdate prev props w)) →
          r ∈ fetches (calls w) ∨ r = fetchParams props)
  ∧ (∀ r, r ∈ fetches (calls (componentDidMount props w)) →
          r ∈ fetches (calls w) ∨ r = fetchParams props)
  ∧ Fetch.node (fetchParams props) = node props
  ∧ Fetch.namespaces (fetchParams props)
    = match node props with
      | Some n => [namespace (fields n)]
      | None => activeNamespaces props
      end
  ∧ (let curr :=
       with_node (getNodeParamsFromProps (next_addr w) reviews_workload)
         bookinfo_props in
     shouldRefetch bookinfo_props curr = true
     ∧ ∃ r n,
         fetches (calls (componentDidUpdate bookinfo_props curr w))
         = fetches (calls w) ++ [r]
         ∧ Fetch.namespaces r = [ {| name := Some "bookinfo" |} ]
         ∧ Fetch.node r = Some n
         ∧ nodeType (fields n) = WORKLOAD
         ∧ workload (fields n) = Some "reviews").
Proof.
  split; [apply loadGraphDataFromBackend_fetches|].
  split.
  { intros r. rewrite componentDidUpdate_fetches, elem_of_app.
    destruct (shouldRefetch prev props);
      rewrite ?list_elem_of_singleton, ?elem_of_nil; tauto. }
  split.
  { intros r. rewrite componentDidMount_fetches, elem_of_app.
    destruct (node_truthy (store_node w));
      rewrite ?list_elem_of_singleton, ?elem_of_nil; tauto. }
  split; [done|]. split; [done|].
  simpl. split; [done|].
  rewrite componentDidUpdate_fetches.
  eexists _, _. split; [reflexivity|]. done.
Qed.

(** With a node stored and none in the URL the constructor clears the
    store, and mounting fetches with the props of the constructor, which
    still hold the node. *)
Lemma bootstrap_url_without_node :
  let props := with_node (Some (reviews_in "bookinfo" 0)) bookinfo_props in
  let w1 := constructor props None (initial_world props 1) in
  calls w1 = [SetNode None]
  ∧ fetches (calls (componentDidMount props w1)) = [fetchParams props]
  ∧ Fetch.node (fetchParams props) = Some (reviews_in "bookinfo" 0).
Proof. by vm_compute. Qed.

(** The bookmark case: nothing stored, the reviews workload in the URL.
    The node is stored first, mounting fetches nothing and the first update
    fetches for the node. *)
Example bootstrap_bookmark :
  let props := with_node None reviews_props in
  let w1 := constructor props None (initial_world props 1) in
  let w2 := componentDidMount props w1 in
  let curr := with_node (store_node w2) props in
  calls w2
  = [SetNode (Some (reviews_in "bookinfo" 1)); On "loadStart";
     On "fetchError"; On "fetchSuccess"; On "emptyNamespaces"]
  ∧ calls (componentDidUpdate props curr w2)
    = calls w2 ++ [FetchGraphData (fetchParams curr)]
  ∧ Fetch.namespaces (fetchParams curr) = [ {| name := Some "bookinfo" |} ].
Proof. by vm_compute. Qed.

Lemma constructor_store
    (props : GraphPageProps) (focus : option string) (next : loc) :
  let urlNode := getNodeParamsFromProps next (match_params props) in
  let w1 := constructor props focus (initial_world props next) in
  (if isNodeChanged urlNode (node props)
   then store_node w1 = urlNode ∧ calls w1 = [SetNode urlNode]
   else store_node w1 = node props ∧ calls w1 = []).
Proof.
  unfold constructor, initial_world; simpl.
  destruct (getNodeParamsFromProps next (match_params props)) as [n|];
    simpl; destruct (isNodeChanged _ (node props)); done.
Qed.

Lemma componentDidMount_store (props : GraphPageProps) (w : World) :
  store_node (componentDidMount props w) = store_node w.
Proof. unfold componentDidMount. by destruct (node_truthy (store_node w)). Qed.

(** The bookmark path: when the URL yields a node that differs from the
    stored one, the constructor stores it before anything is fetched,
    mounting fetches nothing, and the update that observes the stored node
    submits exactly one request, for that node. *)
Lemma bootstrap_deferred
    (props : GraphPageProps) (focus : option string) (next : loc)
    (n : NodeObj) :
  getNodeParamsFromProps next (match_params props) = Some n →
  isNodeChanged (Some n) (node props) = true →
  let w1 := constructor props focus (initial_world props next) in
  let w2 := componentDidMount props w1 in
  let w3 := componentDidUpdate props (with_node (store_node w2) props) w2 in
  store_node w1 = Some n
  ∧ calls w1 = [SetNode (Some n)]
  ∧ fetches (calls w2) = []
  ∧ fetches (calls w3) = [fetchParams (with_node (Some n) props)]
  ∧ Fetch.node (fetchParams (with_node (Some n) props)) = Some n.
Proof.
  intros Hn Hch. cbv zeta.
  pose proof (constructor_store props focus next) as Hc.
  cbv zeta in Hc. rewrite Hn, Hch in Hc. destruct Hc as [Hs Hcalls].
  set (w1 := constructor props focus (initial_world props next)) in *.
  assert (Hf2 : fetches (calls (componentDidMount props w1)) = []).
  { by rewrite componentDidMount_fetches, Hcalls, Hs. }
  split; [done|]. split; [done|]. split; [done|]. split; [|done].
  rewrite componentDidUpdate_fetches, componentDidMount_store, Hf2, Hs.
  assert (Hr : shouldRefetch props (with_node (Some n) props) = true).
  { apply shouldRefetch_iff. do 9 right. simpl.
    by rewrite isNodeChanged_sym. }
  by rewrite Hr.
Qed.

(** C9 (the code departs from it).  With a node stored and no node in the
    URL, the constructor clears the stored node and mounting at once
    submits a request built from the props of the constructor, which still
    hold the old node: the request is for the old node and for its
    namespace.  The update that observes the cleared store then submits the
    corrective request, for no node.  So the initial fetch is not deferred
    and a fetch for the stale node precedes the corrective one. *)
Theorem bootstrap_stale_fetch
    (props : GraphPageProps) (focus : option string) (next : loc)
    (m : NodeObj) :
  node props = Some m →
  getNodeParamsFromProps next (match_params props) = None →
  let w1 := constructor props focus (initial_world props next) in
  let w2 := componentDidMount props w1 in
  let w3 := componentDidUpdate props (with_node (store_node w2) props) w2 in
  calls w1 = [SetNode None]
  ∧ store_node w1 = None
  ∧ fetches (calls w2) = [fetchParams props]
  ∧ Fetch.node (fetchParams props) = Some m
  ∧ Fetch.namespaces (fetchParams props) = [namespace (fields m)]
  ∧ fetches (calls w3)
    = [fetchParams props; fetchParams (with_node None props)]
  ∧ Fetch.node (fetchParams (with_node None props)) = None.
Proof.
  intros Hm Hurl. cbv zeta.
  pose proof (constructor_store props focus next) as Hc.
  cbv zeta in Hc. rewrite Hurl, Hm in Hc. simpl in Hc.
  destruct Hc as [Hs Hcalls].
  set (w1 := constructor props focus (initial_world props next)) in *.
  assert (Hf2 : fetches (calls (componentDidMount props w1))
                = [fetchParams props]).
  { by rewrite componentDidMount_fetches, Hcalls, Hs. }
  split; [done|]. split; [done|]. split; [done|].
  split; [simpl; by rewrite Hm|]. split; [simpl; by rewrite Hm|].
  split; [|done].
  rewrite componentDidUpdate_fetches, componentDidMount_store, Hf2, Hs.
  assert (Hr : shouldRefetch props (with_node None props) = true).
  { apply shouldRefetch_iff. do 9 right. simpl. by rewrite Hm. }
  by rewrite Hr.
Qed.

Lemma bootstrap_stale_fetch_witness :
  let props := with_node (Some (reviews_in "bookinfo" 0)) bookinfo_props in
  let w1 := constructor props None (initial_world props 1) in
  let w2 := componentDidMount props w1 in
  let w3 := componentDidUpdate props (with_node (store_node w2) props) w2 in
  (node props = Some (reviews_in "bookinfo" 0)
   ∧ getNodeParamsFromProps 1 (match_params props) = None)
  ∧ fetches (calls w2) = [fetchParams props]
  ∧ Fetch.node (fetchParams props) = Some (reviews_in "bookinfo" 0)
  ∧ fetches (calls w3)
    = [fetchParams props; fetchParams (with_node None props)].
Proof.
  intros props w1 w2 w3.
  split; [by split|].
  destruct (bootstrap_stale_fetch props None 1 (reviews_in "bookinfo" 0)
              eq_refl eq_refl) as (_ & _ & H2 & Hn & _ & H3 & _).
  by repeat split.
Defined.

(** * Further properties *)

(** ** Node identity *)

Lemma unchanged_objects (x y : NodeObj) :
  same_heap x y →
  (unchanged (Some x) (Some y) ↔ ¬ identity_differs (fields x) (fields y)).
Proof.
  intros Hheap. unfold unchanged.
  rewrite <- not_true_iff_false, isNodeChanged_objects.
  split; [|tauto]. intros H Hd.
  destruct (decide (addr x = addr y)) as [Heq|Hne]; [|tauto].
  unfold identity_differs in Hd. rewrite (Hheap Heq) in Hd. tauto.
Qed.

Lemma not_identity_differs (x y : NodeParamsType) :
  ¬ identity_differs x y
  ↔ app x = app y ∧ service x = service y ∧ version x = version y
    ∧ nodeType x = nodeType y ∧ workload x = workload y.
Proof.
  unfold identity_differs. split.
  - intros H. repeat split; apply dec_stable; tauto.
  - tauto.
Qed.

Lemma isNodeChanged_objects_false (x y : NodeObj) :
  addr x ≠ addr y →
  isNodeChanged (Some x) (Some y) = false →
  ¬ identity_differs (fields x) (fields y).
Proof.
  intros Hne H Hd. apply not_true_iff_false in H. apply H.
  by apply isNodeChanged_objects.
Qed.

(** X1.  [isNodeChanged] does not depend on the order of its arguments. *)
Theorem isNodeChanged_symmetric (m n : option NodeObj) :
  isNodeChanged m n = isNodeChanged n m.
Proof.
  destruct m as [a|], n as [b|]; try done.
  apply eq_true_iff_eq. rewrite !isNodeChanged_objects.
  unfold identity_differs. intuition congruence.
Qed.

Lemma isNodeChanged_trans (a b c : option NodeObj) :
  one_heap a b → one_heap b c →
  isNodeChanged a b = false → isNodeChanged b c = false →
  isNodeChanged a c = false.
Proof.
  intros Hab Hbc H1 H2.
  destruct a as [x|], b as [y|], c as [z|]; try done.
  apply (unchanged_objects x y (Hab x y eq_refl eq_refl)) in H1.
  apply (unchanged_objects y z (Hbc y z eq_refl eq_refl)) in H2.
  apply not_identity_differs in H1, H2.
  apply isNodeChanged_same_fields; intuition congruence.
Qed.

(** X2.  On one heap, being unchanged composes: if [isNodeChanged] is false
    from a to b and from b to c, it is false from a to c. *)
Theorem unchanged_transitive (a b c : option NodeObj) :
  one_heap a b → one_heap b c →
  isNodeChanged a b = false → isNodeChanged b c = false →
  isNodeChanged a c = false.
Proof.
  intros Hab Hbc H1 H2.
  destruct a as [x|], b as [y|], c as [z|]; try done.
  assert (Hxy : ¬ identity_differs (fields x) (fields y))
    by (apply unchanged_objects; [by apply Hab | done]).
  assert (Hyz : ¬ identity_differs (fields y) (fields z))
    by (apply unchanged_objects; [by apply Hbc | done]).
  apply not_identity_differs in Hxy, Hyz.
  apply isNodeChanged_same_fields; intuition congruence.
Qed.

Lemma unchanged_transitive_witness :
  let a := Some (reviews_in "bookinfo" 1) in
  let b := Some (reviews_in "staging" 2) in
  let c := Some (reviews_in "default" 3) in
  (one_heap a b ∧ one_heap b c
   ∧ isNodeChanged a b = false ∧ isNodeChanged b c = false)
  ∧ isNodeChanged a c = false.
Proof.
  intros a b c.
  assert (Hab : one_heap a b).
  { intros x y [= <-] [= <-] Haddr. simpl in Haddr. lia. }
  assert (Hbc : one_heap b c).
  { intros x y [= <-] [= <-] Haddr. simpl in Haddr. lia. }
  split; [by repeat split|].
  exact (unchanged_transitive a b c Hab Hbc eq_refl eq_refl).
Defined.

Lemma getNodeParamsFromProps_type_version
    (fresh : loc) (params : URL.GraphURLPathProps) (n : NodeObj) :
  getNodeParamsFromProps fresh params = Some n →
  nodeType (fields n)
  = (if paramOk (URL.app params) then APP
     else if paramOk (URL.workload params) then WORKLOAD else SERVICE)
  ∧ version (fields n)
    = (if paramOk (URL.app params) || paramOk (URL.workload params)
       then URL.version params else Some "").
Proof.
  unfold getNodeParamsFromProps.
  destruct (paramOk (URL.app params)), (paramOk (URL.namespace params)),
    (paramOk (URL.service params)), (paramOk (URL.workload params));
    simpl; by intros [= <-].
Qed.

(** X3.  Two paths read into two distinct objects give unchanged nodes
    exactly when both give no node, or both give a node and the paths agree
    on app, service and workload, and also on version when app or workload
    is present.  The namespace of the path plays no part beyond making a
    node exist. *)
Theorem isNodeChanged_of_paths
    (l1 l2 : loc) (p1 p2 : URL.GraphURLPathProps) :
  l1 ≠ l2 →
  (isNodeChanged (getNodeParamsFromProps l1 p1)
     (getNodeParamsFromProps l2 p2) = false
   ↔ (getNodeParamsFromProps l1 p1 = None
      ∧ getNodeParamsFromProps l2 p2 = None)
     ∨ (getNodeParamsFromProps l1 p1 ≠ None
        ∧ getNodeParamsFromProps l2 p2 ≠ None
        ∧ URL.app p1 = URL.app p2
        ∧ URL.service p1 = URL.service p2
        ∧ URL.workload p1 = URL.workload p2
        ∧ (present (URL.app p1) ∨ present (URL.workload p1) →
           URL.version p1 = URL.version p2))).
Proof.
  intros Hl.
  destruct (getNodeParamsFromProps l1 p1) as [n1|] eqn:H1;
    destruct (getNodeParamsFromProps l2 p2) as [n2|] eqn:H2;
    try (split; [done | intros [[? ?]|(? & ? & _)]; done]);
    [|split; [by left | done]].
  pose proof (getNodeParamsFromProps_fields _ _ _ H1)
    as (Ha1 & E1a & _ & E1s & E1w).
  pose proof (getNodeParamsFromProps_fields _ _ _ H2)
    as (Ha2 & E2a & _ & E2s & E2w).
  pose proof (getNodeParamsFromProps_type_version _ _ _ H1) as [T1 V1].
  pose proof (getNodeParamsFromProps_type_version _ _ _ H2) as [T2 V2].
  fold (unchanged (Some n1) (Some n2)).
  rewrite unchanged_objects by (intros ?; congruence).
  rewrite not_identity_differs, E1a, E2a, E1s, E2s, E1w, E2w, T1, T2, V1, V2.
  rewrite <- !paramOk_present.
  split.
  - intros (Ea & Es & Ev & Et & Ew). right.
    rewrite <- Ea, <- Ew in Ev.
    repeat split; try done.
    destruct (paramOk (URL.app p1)), (paramOk (URL.workload p1));
      simpl in *; intros [?|?]; done.
  - intros [[? ?]|(_ & _ & Ea & Es & Ew & Hv)]; [done|].
    rewrite <- Ea, <- Ew.
    destruct (paramOk (URL.app p1)), (paramOk (URL.workload p1));
      simpl in *; repeat split; auto.
Qed.

Lemma isNodeChanged_of_paths_witness :
  (1 ≠ 2)%nat
  ∧ isNodeChanged (getNodeParamsFromProps 1 reviews_workload)
      (getNodeParamsFromProps 2
         {| URL.app := None; URL.namespace := Some "staging";
            URL.service := None; URL.version := Some "v9";
            URL.workload := Some "reviews" |}) = true.
Proof.
  assert (H : (1 ≠ 2)%nat) by lia.
  split; [exact H|].
  apply not_false_iff_true. intros Hun.
  apply (isNodeChanged_of_paths 1 2 _ _ H) in Hun.
  destruct Hun as [[Hn _]|(_ & _ & _ & _ & _ & Hv)]; [done|].
  discriminate Hv. right. exists "reviews". by repeat split.
Defined.

(** ** Requests and skipped fetches *)

Lemma bool_decide_ne_false {A : Type} `{EqDecision A} (x y : A) :
  bool_decide (x ≠ y) = false ↔ x = y.
Proof.
  rewrite bool_decide_eq_false. split; [apply dec_stable | by intros ? ?].
Qed.

Lemma activeNamespacesChanged_false (prev curr : GraphPageProps) :
  activeNamespacesChanged prev curr = false ↔ same_names prev curr.
Proof.
  unfold activeNamespacesChanged, same_names. rewrite negb_false_iff.
  apply arrayEquals_by_key.
Qed.

Lemma shouldRefetch_false_iff (prev curr : GraphPageProps) :
  shouldRefetch prev curr = false
  ↔ same_names prev curr
    ∧ duration prev = duration curr
    ∧ (edgeLabelMode prev = edgeLabelMode curr
       ∨ edgeLabelMode curr ≠ RESPONSE_TIME_95TH_PERCENTILE)
    ∧ graphType prev = graphType curr
    ∧ (lastRefreshAt prev = lastRefreshAt curr ∨ replayQueryTime curr ≠ 0)
    ∧ replayQueryTime prev = replayQueryTime curr
    ∧ showServiceNodes prev = showServiceNodes curr
    ∧ showSecurity prev = showSecurity curr
    ∧ showUnusedNodes prev = showUnusedNodes curr
    ∧ isNodeChanged (node prev) (node curr) = false.
Proof.
  unfold shouldRefetch.
  rewrite !orb_false_iff, !andb_false_iff, activeNamespacesChanged_false.
  rewrite !bool_decide_ne_false, !bool_decide_eq_false. tauto.
Qed.

(** X4.  When an update triggers no fetch, the request the new props would
    build agrees with the one of the old props on duration, graph type,
    the three flags and the query time; on the edge label mode unless the
    new mode is other than RESPONSE_TIME_95TH_PERCENTILE; and on whether a
    node is focused and on its five identifying fields. *)
Theorem no_refetch_same_request (prev curr : GraphPageProps) :
  one_heap (node prev) (node curr) →
  shouldRefetch prev curr = false →
  Fetch.duration (fetchParams prev) = Fetch.duration (fetchParams curr)
  ∧ Fetch.graphType (fetchParams prev) = Fetch.graphType (fetchParams curr)
  ∧ Fetch.injectServiceNodes (fetchParams prev)
    = Fetch.injectServiceNodes (fetchParams curr)
  ∧ Fetch.showSecurity (fetchParams prev)
    = Fetch.showSecurity (fetchParams curr)
  ∧ Fetch.showUnusedNodes (fetchParams prev)
    = Fetch.showUnusedNodes (fetchParams curr)
  ∧ Fetch.queryTime (fetchParams prev) = Fetch.queryTime (fetchParams curr)
  ∧ (Fetch.edgeLabelMode (fetchParams prev)
     = Fetch.edgeLabelMode (fetchParams curr)
     ∨ Fetch.edgeLabelMode (fetchParams curr)
       ≠ RESPONSE_TIME_95TH_PERCENTILE)
  ∧ option_Forall2 (λ a b, ¬ identity_differs (fields a) (fields b))
      (Fetch.node (fetchParams prev)) (Fetch.node (fetchParams curr)).
Proof.
  intros Hheap H. apply shouldRefetch_false_iff in H.
  destruct H as (_ & H2 & H3 & H4 & _ & H6 & H7 & H8 & H9 & H10).
  simpl. rewrite H6. repeat split; try done.
  destruct (node prev) as [a|], (node curr) as [b|]; try done;
    constructor.
  apply unchanged_objects; [by apply Hheap | done].
Qed.

Lemma no_refetch_same_request_witness :
  let prev := with_node (Some (reviews_in "bookinfo" 1)) bookinfo_props in
  let curr :=
    with_edgeLabelMode (OTHER_EDGE_LABEL_MODE "requestsPercentage")
      (with_node (Some (reviews_in "staging" 2)) bookinfo_props) in
  (one_heap (node prev) (node curr) ∧ shouldRefetch prev curr = false)
  ∧ Fetch.queryTime (fetchParams prev) = Fetch.queryTime (fetchParams curr).
Proof.
  intros prev curr.
  assert (Hheap : one_heap (node prev) (node curr)).
  { intros x y [= <-] [= <-] Haddr. simpl in Haddr. lia. }
  split; [by split|].
  exact (proj1 (proj2 (proj2 (proj2 (proj2 (proj2
           (no_refetch_same_request prev curr Hheap eq_refl))))))).
Defined.

(** X5.  The query time of a request encodes the replay time without loss:
    it is never 0, it is undefined exactly when the replay time is 0, and
    two snapshots give the same query time exactly when they have the same
    replay time. *)
Theorem queryTime_encodes_replayQueryTime (p q : GraphPageProps) :
  Fetch.queryTime (fetchParams p) ≠ Some 0
  ∧ (Fetch.queryTime (fetchParams p) = None ↔ replayQueryTime p = 0)
  ∧ default 0 (Fetch.queryTime (fetchParams p)) = replayQueryTime p
  ∧ (Fetch.queryTime (fetchParams p) = Fetch.queryTime (fetchParams q)
     ↔ replayQueryTime p = replayQueryTime q).
Proof.
  simpl. repeat case_bool_decide; simpl; repeat split;
    try done; try congruence; intros; simplify_eq; try done; congruence.
Qed.

Lemma same_names_trans (a b c : GraphPageProps) :
  same_names a b → same_names b c → same_names a c.
Proof. intros H1 H2 x. by rewrite (H1 x), (H2 x). Qed.

(** X6.  Skipped fetches compose: on one heap, if neither the update from a
    to b nor the update from b to c satisfies the refetch condition, then
    an update from a straight to c does not satisfy it either. *)
Theorem no_refetch_transitive (a b c : GraphPageProps) :
  one_heap (node a) (node b) → one_heap (node b) (node c) →
  shouldRefetch a b = false → shouldRefetch b c = false →
  shouldRefetch a c = false.
Proof.
  intros Hab Hbc H1 H2.
  apply shouldRefetch_false_iff in H1, H2. apply shouldRefetch_false_iff.
  destruct H1 as (A1 & A2 & A3 & A4 & A5 & A6 & A7 & A8 & A9 & A10).
  destruct H2 as (B1 & B2 & B3 & B4 & B5 & B6 & B7 & B8 & B9 & B10).
  split; [by eapply same_names_trans|].
  split; [congruence|].
  split.
  { destruct B3 as [B3|B3]; [|by right].
    destruct A3 as [A3|A3]; [left; congruence | right; congruence]. }
  split; [congruence|].
  split.
  { destruct B5 as [B5|B5]; [|by right].
    destruct A5 as [A5|A5]; [left; congruence | right; congruence]. }
  repeat (split; [congruence|]).
  by eapply isNodeChanged_trans.
Qed.

Lemma no_refetch_transitive_witness :
  let a := with_edgeLabelMode RESPONSE_TIME_95TH_PERCENTILE bookinfo_props in
  let b := bookinfo_props in
  let c := with_edgeLabelMode (OTHER_EDGE_LABEL_MODE "none") bookinfo_props in
  (one_heap (node a) (node b) ∧ one_heap (node b) (node c)
   ∧ shouldRefetch a b = false ∧ shouldRefetch b c = false)
  ∧ shouldRefetch a c = false.
Proof.
  intros a b c.
  assert (Hab : one_heap (node a) (node b)) by (intros x y; discriminate).
  assert (Hbc : one_heap (node b) (node c)) by (intros x y; discriminate).
  split; [by repeat split|].
  exact (no_refetch_transitive a b c Hab Hbc eq_refl eq_refl).
Defined.

(** ** Updates *)

Lemma componentDidUpdate_calls (prev curr : GraphPageProps) (w : World) :
  calls (componentDidUpdate prev curr w)
  = calls w
    ++ (if activeNamespacesChanged prev curr then [GraphChanged] else [])
    ++ (if shouldRefetch prev curr
        then [FetchGraphData (fetchParams curr)] else [])
    ++ (if focus_truthy (focusSelector w) then [UnsetFocusSelector] else [])
    ++ (if bool_decide (layoutName prev ≠ layoutName curr)
           || activeNamespacesChanged prev curr
        then [CleanError] else [])
    ++ (if showLegend curr && activeTour curr then [EndTour] else []).
Proof.
  unfold componentDidUpdate, loadGraphDataFromBackend, dispatch.
  destruct w as [stored [f|] next cs];
    destruct (activeNamespacesChanged prev curr), (shouldRefetch prev curr),
      (bool_decide (layoutName prev ≠ layoutName curr)),
      (showLegend curr), (activeTour curr);
    simpl; try destruct (bool_decide (f ≠ ""));
    simpl; by rewrite <- ?app_assoc, ?app_nil_r.
Qed.

Lemma componentDidUpdate_focusSelector
    (prev curr : GraphPageProps) (w : World) :
  focusSelector (componentDidUpdate prev curr w)
  = if focus_truthy (focusSelector w) then None else focusSelector w.
Proof.
  unfold componentDidUpdate, loadGraphDataFromBackend, dispatch.
  destruct w as [stored [f|] next cs];
    destruct (activeNamespacesChanged prev curr), (shouldRefetch prev curr),
      (bool_decide (layoutName prev ≠ layoutName curr)),
      (showLegend curr), (activeTour curr);
    simpl; try destruct (bool_decide (f ≠ "")); done.
Qed.

Lemma times_app (c : Call) (cs ds : list Call) :
  times c (cs ++ ds) = (times c cs + times c ds)%nat.
Proof. unfold times. by rewrite list.filter_app, length_app. Qed.

Lemma times_if (c d : Call) (b : bool) :
  times c (if b then [d] else [])
  = if b && bool_decide (d = c) then 1%nat else 0%nat.
Proof.
  destruct b; [|done]. unfold times. simpl.
  rewrite list.filter_cons. by repeat case_decide; case_bool_decide.
Qed.

Lemma componentDidUpdate_unset (prev curr : GraphPageProps) (w : World) :
  times UnsetFocusSelector (calls (componentDidUpdate prev curr w))
  = (times UnsetFocusSelector (calls w)
     + if focus_truthy (focusSelector w) then 1 else 0)%nat.
Proof.
  rewrite componentDidUpdate_calls, !times_app, !times_if.
  rewrite !(bool_decide_eq_false_2 (_ = UnsetFocusSelector)) by done.
  rewrite bool_decide_eq_true_2 by done.
  rewrite !andb_false_r, andb_true_r. lia.
Qed.

(** X7.  The focus selector is consumed once.  When a non-empty selector
    is pending, a run of at least one update calls [unsetFocusSelector]
    exactly once and leaves no selector; when none is pending, or the empty
    string, a run of updates never calls [unsetFocusSelector] and leaves
    the selector as it is. *)
Theorem focusSelector_one_shot
    (prev : GraphPageProps) (nexts : list GraphPageProps) (w : World) :
  (∀ s, focusSelector w = Some s → s ≠ "" → nexts ≠ [] →
     times UnsetFocusSelector (calls (run_updates prev nexts w))
     = S (times UnsetFocusSelector (calls w))
     ∧ focusSelector (run_updates prev nexts w) = None)
  ∧ (focusSelector w = None ∨ focusSelector w = Some "" →
     times UnsetFocusSelector (calls (run_updates prev nexts w))
     = times UnsetFocusSelector (calls w)
     ∧ focusSelector (run_updates prev nexts w) = focusSelector w).
Proof.
  assert (Hidle : ∀ nexts prev w,
    focusSelector w = None ∨ focusSelector w = Some "" →
    times UnsetFocusSelector (calls (run_updates prev nexts w))
    = times UnsetFocusSelector (calls w)
    ∧ focusSelector (run_updates prev nexts w) = focusSelector w).
  { clear. induction nexts as [|curr nexts IH]; intros prev w Hw; [done|].
    simpl.
    assert (Hf : focus_truthy (focusSelector w) = false)
      by (destruct Hw as [-> | ->]; done).
    assert (Hsame : focusSelector (componentDidUpdate prev curr w)
                    = focusSelector w)
      by (by rewrite componentDidUpdate_focusSelector, Hf).
    destruct (IH curr (componentDidUpdate prev curr w)) as [IH1 IH2];
      [by rewrite Hsame|].
    rewrite IH1, IH2, Hsame, componentDidUpdate_unset, Hf.
    split; [lia | done]. }
  split; [|apply Hidle].
  intros s Hs Hne Hnexts.
  destruct nexts as [|curr nexts]; [done|]. simpl.
  assert (Hf : focus_truthy (focusSelector w) = true).
  { rewrite Hs. simpl. by apply bool_decide_eq_true_2. }
  assert (Hgone : focusSelector (componentDidUpdate prev curr w) = None)
    by (by rewrite componentDidUpdate_focusSelector, Hf).
  destruct (Hidle nexts curr (componentDidUpdate prev curr w)) as [H1 H2];
    [by left|].
  rewrite H1, H2, Hgone, componentDidUpdate_unset, Hf.
  split; [lia | done].
Qed.

(** X8.  A run of updates submits one request per transition that
    satisfies the refetch condition, built from the props the transition
    arrives at, in the order of the transitions; so never more requests
    than updates. *)
Theorem run_updates_fetches
    (prev : GraphPageProps) (nexts : list GraphPageProps) (w : World) :
  fetches (calls (run_updates prev nexts w))
  = fetches (calls w) ++ triggered prev nexts
  ∧ (length (triggered prev nexts) ≤ length nexts)%nat.
Proof.
  revert prev w. induction nexts as [|curr nexts IH]; intros prev w.
  - simpl. by rewrite app_nil_r.
  - simpl. destruct (IH curr (componentDidUpdate prev curr w)) as [IH1 IH2].
    rewrite IH1, componentDidUpdate_fetches, <- app_assoc.
    split; [done|].
    rewrite length_app. destruct (shouldRefetch prev curr); simpl; lia.
Qed.

(** X9.  An update between a snapshot and a copy of it, with no focus
    selector pending and not both a legend shown and a tour active, leaves
    the world as it is: nothing is called. *)
Theorem componentDidUpdate_idle (prev curr : GraphPageProps) (w : World) :
  copy_of prev curr →
  focus_truthy (focusSelector w) = false →
  showLegend curr && activeTour curr = false →
  componentDidUpdate prev curr w = w.
Proof.
  intros Hcopy Hfocus Htour.
  pose proof (shouldRefetch_copy _ _ Hcopy) as Hfetch.
  destruct Hcopy as (n & -> & Hn).
  assert (Hns : activeNamespacesChanged prev (with_node n prev) = false).
  { apply activeNamespacesChanged_same. by intros x. }
  unfold componentDidUpdate, dispatch.
  rewrite Hns, Hfetch, Hfocus. simpl in *. rewrite Htour.
  by rewrite (bool_decide_eq_false_2 (layoutName prev ≠ layoutName prev))
    by tauto.
Qed.

Lemma componentDidUpdate_idle_witness :
  let w := initial_world bookinfo_props 1 in
  (copy_of bookinfo_props bookinfo_props
   ∧ focus_truthy (focusSelector w) = false
   ∧ showLegend bookinfo_props && activeTour bookinfo_props = false)
  ∧ componentDidUpdate bookinfo_props bookinfo_props w = w.
Proof.
  intros w.
  assert (Hcopy : copy_of bookinfo_props bookinfo_props).
  { exists None. split; [reflexivity | constructor]. }
  split; [by repeat split|].
  exact (componentDidUpdate_idle bookinfo_props bookinfo_props w
           Hcopy eq_refl eq_refl).
Defined.

(** X10.  When the active namespaces have changed, the update first calls
    [graphChanged], then submits the request of the new props, and later
    clears the error of the boundary. *)
Theorem componentDidUpdate_namespaces_changed
    (prev curr : GraphPageProps) (w : World) :
  activeNamespacesChanged prev curr = true →
  ∃ rest,
    calls (componentDidUpdate prev curr w)
    = calls w ++ GraphChanged :: FetchGraphData (fetchParams curr) :: rest
    ∧ CleanError ∈ rest.
Proof.
  intros Hns. rewrite componentDidUpdate_calls.
  assert (Hfetch : shouldRefetch prev curr = true).
  { unfold shouldRefetch. by rewrite Hns. }
  rewrite Hns, Hfetch, orb_true_r. simpl.
  eexists. split; [reflexivity|].
  apply elem_of_app. right. simpl. left.
Qed.

Lemma componentDidUpdate_namespaces_changed_witness :
  let curr := with_activeNamespaces [ {| name := Some "default" |} ]
                bookinfo_props in
  activeNamespacesChanged bookinfo_props curr = true
  ∧ ∃ rest,
      calls (componentDidUpdate bookinfo_props curr
               (initial_world bookinfo_props 1))
      = calls (initial_world bookinfo_props 1)
        ++ GraphChanged :: FetchGraphData (fetchParams curr) :: rest
      ∧ CleanError ∈ rest.
Proof.
  intros curr.
  assert (H : activeNamespacesChanged bookinfo_props curr = true)
    by reflexivity.
  split; [exact H|].
  exact (componentDidUpdate_namespaces_changed bookinfo_props curr
           (initial_world bookinfo_props 1) H).
Defined.

(** ** Construction, mounting and unmounting *)

Lemma constructor_world
    (props : GraphPageProps) (focus : option string) (next : loc) :
  let w1 := constructor props focus (initial_world props next) in
  focusSelector w1 = focus
  ∧ next_addr w1
    = match getNodeParamsFromProps next (match_params props) with
      | Some _ => S next
      | None => next
      end.
Proof.
  unfold constructor, initial_world; simpl.
  destruct (getNodeParamsFromProps next (match_params props)) as [n|];
    simpl; destruct (isNodeChanged _ (node props)); done.
Qed.

(** X12.  Built on a world whose store holds the node of the props, with a
    fresh address, the constructor submits no request, keeps the focus
    selector it is given, and leaves in the store a node that
    [isNodeChanged] does not tell from the node of the URL.  Constructing
    again from that world, with the node of the store as the node of the
    props, calls nothing. *)
Theorem constructor_reconciles
    (props : GraphPageProps) (focus focus' : option string) (next : loc) :
  (∀ m, node props = Some m → addr m ≠ next) →
  let urlNode := getNodeParamsFromProps next (match_params props) in
  let w1 := constructor props focus (initial_world props next) in
  fetches (calls w1) = []
  ∧ focusSelector w1 = focus
  ∧ isNodeChanged urlNode (store_node w1) = false
  ∧ calls (constructor (with_node (store_node w1) props) focus' w1)
    = calls w1.
Proof.
  intros Hfresh. cbv zeta.
  pose proof (constructor_store props focus next) as Hc.
  pose proof (constructor_world props focus next) as [Hf Ha].
  cbv zeta in Hc, Hf, Ha.
  set (w1 := constructor props focus (initial_world props next)) in *.
  assert (Hagain :
    isNodeChanged
      (getNodeParamsFromProps (next_addr w1) (match_params props))
      (store_node w1) = false).
  { rewrite Ha.
    destruct (getNodeParamsFromProps next (match_params props))
      as [n|] eqn:Hurl.
    - destruct (isNodeChanged (Some n) (node props)) eqn:Hch;
        destruct Hc as [Hs _]; rewrite Hs.
      + rewrite <- Hurl. apply getNodeParamsFromProps_twice.
      + destruct (node props) as [m|] eqn:Hm; [|done].
        pose proof (getNodeParamsFromProps_fields _ _ _ Hurl) as (Hn & _).
        apply isNodeChanged_objects_false in Hch;
          [|rewrite Hn; intros E; by apply (Hfresh m)].
        pose proof (getNodeParamsFromProps_twice (S next) next
                      (match_params props)) as Htw.
        rewrite Hurl in Htw.
        destruct (getNodeParamsFromProps (S next) (match_params props))
          as [n'|] eqn:Hurl'; [|done].
        pose proof (getNodeParamsFromProps_fields _ _ _ Hurl') as (Hn' & _).
        apply isNodeChanged_objects_false in Htw;
          [|rewrite Hn, Hn'; lia].
        apply not_identity_differs in Hch, Htw.
        apply isNodeChanged_same_fields; intuition congruence.
    - rewrite Hurl.
      destruct (isNodeChanged None (node props)) eqn:Hch;
        destruct Hc as [Hs _]; by rewrite Hs. }
  split.
  { destruct (isNodeChanged _ (node props));
      destruct Hc as [_ ->]; done. }
  split; [done|]. split.
  { destruct (isNodeChanged _ (node props)) eqn:Hch;
      destruct Hc as [-> _]; [apply isNodeChanged_refl | done]. }
  unfold constructor at 1. simpl.
  destruct w1 as [stored fs na cs]. simpl in *.
  rewrite Hagain.
  by destruct (getNodeParamsFromProps na (match_params props)).
Qed.

Lemma constructor_reconciles_witness :
  (∀ m, node reviews_props = Some m → addr m ≠ 1%nat)
  ∧ calls (constructor
             (with_node
                (store_node
                   (constructor reviews_props None
                      (initial_world reviews_props 1)))
                reviews_props)
             None
             (constructor reviews_props None
                (initial_world reviews_props 1)))
    = calls (constructor reviews_props None (initial_world reviews_props 1)).
Proof.
  assert (H : ∀ m, node reviews_props = Some m → addr m ≠ 1%nat).
  { intros m [= <-]. simpl. lia. }
  split; [exact H|].
  exact (proj2 (proj2 (proj2
           (constructor_reconciles reviews_props None None 1 H)))).
Defined.

Lemma subscribed_app (cs ds : list Call) :
  subscribed (cs ++ ds) = subscribed cs ++ subscribed ds.
Proof.
  induction cs as [|c cs IH]; [done|].
  destruct c; simpl; by rewrite ?IH.
Qed.

(** X13.  Mounting subscribes to four events of the data source and
    unmounting removes the listener of the same four events, in the same
    order; updates subscribe to nothing. *)
Theorem listeners_balanced
    (props prev : GraphPageProps) (nexts : list GraphPageProps) (w : World) :
  subscribed (calls (componentDidMount props w))
  = subscribed (calls w) ++ componentWillUnmount
  ∧ subscribed (calls (run_updates prev nexts w)) = subscribed (calls w).
Proof.
  split.
  - unfold componentDidMount, loadGraphDataFromBackend.
    destruct (node_truthy (store_node w)); simpl;
      rewrite !subscribed_app; simpl; by rewrite ?app_nil_r, <- ?app_assoc.
  - revert prev w. induction nexts as [|curr nexts IH]; intros prev w.
    + done.
    + simpl. rewrite IH, componentDidUpdate_calls, !subscribed_app.
      destruct (activeNamespacesChanged prev curr),
        (shouldRefetch prev curr), (focus_truthy (focusSelector w)),
        (bool_decide (layoutName prev ≠ layoutName curr)),
        (showLegend curr), (activeTour curr);
        simpl; by rewrite ?app_nil_r.
Qed.

(** ** Rendering *)

(** X14.  The chip and the toolbar of the graph are shown together, when
    the data source holds at least one node and no error.  The graph is
    hidden exactly when replay is active with no replay time set.  A shown
    chip holds exactly one text: "click Play to start" when the graph is
    hidden, and otherwise what [displayTimeRange] returns; it holds the
    Replay badge exactly when replay is active. *)
Theorem render_chip_and_graph (i : Render.Input) :
  let v := Render.render i in
  (is_Some (Render.chip v)
   ↔ Render.cytoscapeToolbar v = true)
  ∧ (Render.cytoscapeToolbar v = true
     ↔ (∃ keys, Render.nodes (Render.dataSource i) = Some keys
                ∧ (0 < keys)%nat)
       ∧ Render.isError (Render.dataSource i) = false)
  ∧ (Render.graph v = None
     ↔ Render.replayActive i = true
       ∧ replayQueryTime (Render.props i) = 0)
  ∧ (∀ c, Render.chip v = Some c →
       Render.badge c = Render.replayActive i
       ∧ Render.text c
         = match Render.graph v with
           | None => [Render.ClickPlayToStart]
           | Some _ => [Render.DisplayTimeRange]
           end).
Proof.
  unfold Render.render; simpl.
  split; [|split; [|split]].
  - destruct (Render.nodes (Render.dataSource i)) as [keys|]; simpl.
    + destruct (bool_decide (0 < keys)%nat
                && negb (Render.isError (Render.dataSource i)));
        split; try done; by intros [? ?].
    + split; [by intros [? ?] | done].
  - destruct (Render.nodes (Render.dataSource i)) as [keys|]; simpl.
    + rewrite andb_true_iff, bool_decide_eq_true, negb_true_iff. split.
      * intros [? ?]. split; [by exists keys | done].
      * intros [(k & [= <-] & ?) ?]. done.
    + split; [done | by intros [(k & ? & _) _]].
  - destruct (Render.replayActive i); simpl.
    + case_bool_decide as Hq; simpl.
      * split; [done | by intros [_ ?]].
      * split; [|done]. intros _. split; [done | lia].
    + split; [done | by intros [? _]].
  - intros c.
    destruct (match Render.nodes (Render.dataSource i) with
              | Some keys => _ | None => _ end); [|done].
    intros [= <-]; simpl.
    destruct (Render.replayActive i); simpl;
      try case_bool_decide; simpl; done.
Qed.

(** ** The list page *)

Lemma class_run_stop (s rest : string) :
  VirtualList.class_run s = "" →
  VirtualList.class_run (s +:+ String "/" rest) = "".
Proof.
  destruct s as [|c s]; [done|]. simpl.
  by destruct (VirtualList.in_class c).
Qed.

Lemma class_run_segment (seg rest : string) :
  VirtualList.all_class seg = true →
  VirtualList.class_run rest = "" →
  VirtualList.class_run (seg +:+ rest) = seg.
Proof.
  intros Hseg Hrest. induction seg as [|c seg IH]; [done|].
  simpl in *. apply andb_true_iff in Hseg as [Hc Hseg].
  by rewrite Hc, IH.
Qed.

Lemma class_run_all_class (s : string) :
  VirtualList.all_class (VirtualList.class_run s) = true.
Proof.
  induction s as [|c s IH]; [done|]. simpl.
  destruct (VirtualList.in_class c) eqn:Hc; [|done].
  simpl. by rewrite Hc, IH.
Qed.

Lemma listRegex_group (s g : string) :
  VirtualList.listRegex s = Some g →
  g ≠ "" ∧ VirtualList.all_class g = true.
Proof.
  induction s as [|c s IH]; [done|]. simpl.
  case_bool_decide; [|done].
  destruct (VirtualList.class_run s) as [|d r] eqn:Hrun; [done|].
  intros [= <-]. split; [done|].
  rewrite <- Hrun. apply class_run_all_class.
Qed.

(** X15.  The type of the list is the first path segment made of
    [a-z0-9-]: for a pathname that holds, after a prefix in which nothing
    matches, a slash, a non-empty segment of such characters and then
    either nothing or a character of another kind, the type is that
    segment. *)
Theorem list_type_first_segment (pre seg rest : string) :
  VirtualList.listRegex pre = None →
  seg ≠ "" →
  VirtualList.all_class seg = true →
  VirtualList.class_run rest = "" →
  VirtualList.list_type (pre +:+ String "/" (seg +:+ rest)) = seg.
Proof.
  intros Hpre Hne Hseg Hrest. unfold VirtualList.list_type.
  assert (H : VirtualList.listRegex (pre +:+ String "/" (seg +:+ rest))
              = Some seg); [|by rewrite H].
  induction pre as [|c pre IH].
  - simpl. rewrite class_run_segment by done.
    by destruct seg.
  - simpl in *. case_bool_decide.
    + destruct (VirtualList.class_run pre) eqn:Hrun; [|done].
      rewrite class_run_stop by done. by apply IH.
    + by apply IH.
Qed.

Lemma list_type_first_segment_witness :
  (VirtualList.listRegex "" = None
   ∧ "applications" ≠ ""
   ∧ VirtualList.all_class "applications" = true
   ∧ VirtualList.class_run "/details" = "")
  ∧ VirtualList.list_type "/applications/details" = "applications".
Proof.
  split; [by repeat split|].
  exact (list_type_first_segment "" "applications" "/details"
           eq_refl ltac:(done) eq_refl eq_refl).
Defined.

(** X16.  The type read from a pathname holds characters of [a-z0-9-]
    only, and it is empty exactly when the pathname holds no slash that is
    directly followed by such a character. *)
Theorem list_type_class (pathname : string) :
  VirtualList.all_class (VirtualList.list_type pathname) = true
  ∧ (VirtualList.list_type pathname = ""
     ↔ ∀ pre c rest,
         pathname = pre +:+ String "/" (String c rest) →
         VirtualList.in_class c = false).
Proof.
  unfold VirtualList.list_type. split.
  - destruct (VirtualList.listRegex pathname) as [g|] eqn:Hg; [|done].
    by apply listRegex_group in Hg as [_ ?].
  - induction pathname as [|d s IH]; simpl.
    + split; [|done]. intros _ [|? pre] c rest; done.
    + case_bool_decide as Hd.
      * subst d. destruct (VirtualList.class_run s) as [|e r] eqn:Hrun.
        -- rewrite IH. split.
           ++ intros H [|x pre] c rest; simpl; intros [= Heq].
              ** subst s. simpl in Hrun.
                 by destruct (VirtualList.in_class c).
              ** by eapply H.
           ++ intros H pre c rest Heq.
              apply (H (String "/" pre) c rest). simpl. by rewrite Heq.
        -- simpl. split; [done|]. intros H.
           destruct s as [|c s']; [done|].
           specialize (H "" c s' eq_refl). simpl in Hrun.
           by rewrite H in Hrun.
      * rewrite IH. split.
        -- intros H [|x pre] c rest; simpl; intros [= Heq1 Heq2];
             [done | by eapply H].
        -- intros H pre c rest Heq.
           apply (H (String d pre) c rest). simpl. by rewrite Heq.
Qed.

Lemma onSort_in_range
    (st : VirtualList.State) (i : nat) (dir : option string)
    (c : VirtualList.ResourceType) :
  VirtualList.columns (VirtualList.conf st) !! i = Some c →
  ∃ written,
    VirtualList.onSort (Z.of_nat i) dir st
    = ({| VirtualList.type := VirtualList.type st;
          VirtualList.sortBy :=
            {| VirtualList.index := Z.of_nat i;
               VirtualList.direction := dir |};
          VirtualList.state_columns := VirtualList.state_columns st;
          VirtualList.conf := VirtualList.conf st |},
       written
         ++ [ {| VirtualList.key := VirtualList.SORT;
                 VirtualList.value :=
                   VirtualList.String_of (VirtualList.param c) |} ],
       true).
Proof.
  intros Hc. unfold VirtualList.onSort, VirtualList.column_at.
  rewrite bool_decide_eq_true_2 by lia. rewrite Nat2Z.id, Hc.
  by eexists.
Qed.

(** X17.  Sorting by a column whose [param] is a non-empty string that no
    earlier column has writes that string under SORT, as the last
    parameter written; a constructor that finds the same [conf] and is
    given the string as the sort parameter builds a state with the index of
    the column again. *)
Theorem onSort_restores_index
    (st : VirtualList.State) (i : nat) (dir : option string)
    (c : VirtualList.ResourceType) (s : string) :
  VirtualList.columns (VirtualList.conf st) !! i = Some c →
  VirtualList.param c = Some s →
  s ≠ "" →
  (∀ j c', (j < i)%nat →
     VirtualList.columns (VirtualList.conf st) !! j = Some c' →
     VirtualList.param c' ≠ Some s) →
  ∃ st' written,
    VirtualList.onSort (Z.of_nat i) dir st
    = (st',
       written ++ [ {| VirtualList.key := VirtualList.SORT;
                       VirtualList.value := s |} ],
       true)
    ∧ VirtualList.index (VirtualList.sortBy st') = Z.of_nat i
    ∧ ∀ config headerTable pathname directionParam,
        config (VirtualList.list_type pathname)
        = Some (VirtualList.conf st') →
        ∃ st2,
          VirtualList.constructor config headerTable pathname
            (Some s) directionParam = Some st2
          ∧ VirtualList.sortBy st2
            = {| VirtualList.index := Z.of_nat i;
                 VirtualList.direction := directionParam |}.
Proof.
  intros Hc Hs Hne Hfirst.
  destruct (onSort_in_range st i dir c Hc) as (written & Hsort).
  rewrite Hs in Hsort. simpl in Hsort.
  eexists _, written. split; [exact Hsort|]. split; [done|]. simpl.
  intros config headerTable pathname directionParam Hconf.
  unfold VirtualList.constructor. rewrite Hconf.
  eexists. split; [reflexivity|]. simpl. f_equal.
  unfold VirtualList.sortIndex, VirtualList.findIndex. simpl.
  rewrite bool_decide_eq_true_2 by done.
  assert (Hfind :
    list_find (λ x, bool_decide (VirtualList.param x = Some s) = true)
      (VirtualList.columns (VirtualList.conf st)) = Some (i, c)).
  { apply list_find_Some. split; [done|]. split.
    - by apply bool_decide_eq_true_2.
    - intros j y Hy Hj Hp. apply bool_decide_eq_true_1 in Hp.
      by apply (Hfirst j y). }
  by rewrite Hfind.
Qed.

Lemma onSort_restores_index_witness :
  let health := {| VirtualList.param := Some "he";
                   VirtualList.column := "Health";
                   VirtualList.transforms := None |} in
  let item := {| VirtualList.param := Some "wn";
                 VirtualList.column := "Name";
                 VirtualList.transforms := None |} in
  let conf := {| VirtualList.columns := [health; item];
                 VirtualList.caption := None |} in
  let st := {| VirtualList.type := "workloads";
               VirtualList.sortBy := {| VirtualList.index := -1;
                                        VirtualList.direction := None |};
               VirtualList.state_columns := [];
               VirtualList.conf := conf |} in
  (VirtualList.columns (VirtualList.conf st) !! 1%nat = Some item
   ∧ VirtualList.param item = Some "wn" ∧ "wn" ≠ "")
  ∧ ∃ st' written,
      VirtualList.onSort 1 (Some "asc") st
      = (st', written ++ [ {| VirtualList.key := VirtualList.SORT;
                              VirtualList.value := "wn" |} ], true)
      ∧ VirtualList.index (VirtualList.sortBy st') = 1
      ∧ ∀ config headerTable pathname directionParam,
          config (VirtualList.list_type pathname)
          = Some (VirtualList.conf st') →
          ∃ st2,
            VirtualList.constructor config headerTable pathname
              (Some "wn") directionParam = Some st2
            ∧ VirtualList.sortBy st2
              = {| VirtualList.index := 1;
                   VirtualList.direction := directionParam |}.
Proof.
  intros health item conf st.
  split; [by repeat split|].
  refine (onSort_restores_index st 1 (Some "asc") item "wn"
            eq_refl eq_refl _ _); [done|].
  intros j c' Hj. destruct j as [|j]; [|lia].
  intros [= <-]. done.
Defined.

(** X18.  Sorting by a column that has no [param] writes the string
    "undefined" under SORT, and a constructor that finds the same [conf]
    and is given that string as the sort parameter builds a state with
    another index than the one of the column. *)
Theorem onSort_column_without_param
    (st : VirtualList.State) (i : nat) (dir : option string)
    (c : VirtualList.ResourceType) :
  VirtualList.columns (VirtualList.conf st) !! i = Some c →
  VirtualList.param c = None →
  ∃ st' written,
    VirtualList.onSort (Z.of_nat i) dir st
    = (st',
       written ++ [ {| VirtualList.key := VirtualList.SORT;
                       VirtualList.value := "undefined" |} ],
       true)
    ∧ ∀ config headerTable pathname directionParam,
        config (VirtualList.list_type pathname)
        = Some (VirtualList.conf st') →
        ∃ st2,
          VirtualList.constructor config headerTable pathname
            (Some "undefined") directionParam = Some st2
          ∧ VirtualList.index (VirtualList.sortBy st2) ≠ Z.of_nat i.
Proof.
  intros Hc Hp.
  destruct (onSort_in_range st i dir c Hc) as (written & Hsort).
  rewrite Hp in Hsort. simpl in Hsort.
  eexists _, written. split; [exact Hsort|]. simpl.
  intros config headerTable pathname directionParam Hconf.
  unfold VirtualList.constructor. rewrite Hconf.
  eexists. split; [reflexivity|]. simpl.
  unfold VirtualList.sortIndex, VirtualList.findIndex. simpl.
  destruct (list_find _ _) as [[j y]|] eqn:Hfind; [|lia].
  apply list_find_Some in Hfind as (Hy & Hpy & _).
  apply bool_decide_eq_true_1 in Hpy.
  intros Hji. apply Nat2Z.inj in Hji. subst j. congruence.
Qed.

Lemma onSort_column_without_param_witness :
  let details := {| VirtualList.param := None;
                    VirtualList.column := "Details";
                    VirtualList.transforms := None |} in
  let conf := {| VirtualList.columns := [details];
                 VirtualList.caption := None |} in
  let st := {| VirtualList.type := "services";
               VirtualList.sortBy := {| VirtualList.index := -1;
                                        VirtualList.direction := None |};
               VirtualList.state_columns := [];
               VirtualList.conf := conf |} in
  (VirtualList.columns (VirtualList.conf st) !! 0%nat = Some details
   ∧ VirtualList.param details = None)
  ∧ ∃ st' written,
      VirtualList.onSort 0 None st
      = (st', written ++ [ {| VirtualList.key := VirtualList.SORT;
                              VirtualList.value := "undefined" |} ], true)
      ∧ ∀ config headerTable pathname directionParam,
          config (VirtualList.list_type pathname)
          = Some (VirtualList.conf st') →
          ∃ st2,
            VirtualList.constructor config headerTable pathname
              (Some "undefined") directionParam = Some st2
            ∧ VirtualList.index (VirtualList.sortBy st2) ≠ 0.
Proof.
  intros details conf st.
  split; [by split|].
  exact (onSort_column_without_param st 0 None details eq_refl eq_refl).
Defined.

(** X19.  [onSort] returns exactly when the index lies within the columns;
    otherwise it throws once it has set the sort state and written the
    direction, and writes nothing under SORT.  In both cases the state
    holds the index and the direction it was given, and the direction is
    written exactly when it is a non-empty string. *)
Theorem onSort_outcome
    (index : Z) (dir : option string) (st : VirtualList.State) :
  let st' := (VirtualList.onSort index dir st).1.1 in
  let written := (VirtualList.onSort index dir st).1.2 in
  let returns := (VirtualList.onSort index dir st).2 in
  (returns = true
   ↔ 0 ≤ index < Z.of_nat (length (VirtualList.columns (VirtualList.conf st))))
  ∧ VirtualList.sortBy st'
    = {| VirtualList.index := index; VirtualList.direction := dir |}
  ∧ VirtualList.conf st' = VirtualList.conf st
  ∧ (∀ d, {| VirtualList.key := VirtualList.DIRECTION;
             VirtualList.value := d |} ∈ written
          ↔ dir = Some d ∧ d ≠ "")
  ∧ (returns = false →
     ∀ v, {| VirtualList.key := VirtualList.SORT;
             VirtualList.value := v |} ∉ written).
Proof.
  assert (Hdir : ∀ d,
    {| VirtualList.key := VirtualList.DIRECTION; VirtualList.value := d |}
      ∈ match dir with
        | Some d' => if bool_decide (d' ≠ "")
                     then [ {| VirtualList.key := VirtualList.DIRECTION;
                               VirtualList.value := d' |} ]
                     else []
        | None => []
        end
    ↔ dir = Some d ∧ d ≠ "").
  { intros d. destruct dir as [d'|]; [|split; [by intros ?%elem_of_nil | by intros [? _]]].
    case_bool_decide as Hd.
    - rewrite list_elem_of_singleton. split.
      + by intros [= <-].
      + by intros [[= <-] _].
    - split; [by intros ?%elem_of_nil|]. intros [[= <-] ?]. done. }
  unfold VirtualList.onSort, VirtualList.column_at.
  case_bool_decide as Hidx.
  - destruct (VirtualList.columns (VirtualList.conf st) !! Z.to_nat index)
      as [c|] eqn:Hc; simpl.
    + apply lookup_lt_Some in Hc.
      split; [split; [lia | done]|].
      split; [done|]. split; [done|]. split; [|done].
      intros d. rewrite elem_of_app, list_elem_of_singleton, Hdir.
      split; [intros [?|?]; done | by left].
    + apply lookup_ge_None in Hc.
      split; [split; [done | lia]|].
      split; [done|]. split; [done|]. split; [exact Hdir|].
      intros _ v Hv. destruct dir as [d'|]; [|by apply elem_of_nil in Hv].
      case_bool_decide; [|by apply elem_of_nil in Hv].
      by apply list_elem_of_singleton in Hv.
  - simpl. split; [split; [done | lia]|].
    split; [done|]. split; [done|]. split; [exact Hdir|].
    intros _ v Hv. destruct dir as [d'|]; [|by apply elem_of_nil in Hv].
    case_bool_decide; [|by apply elem_of_nil in Hv].
    by apply list_elem_of_singleton in Hv.
Qed.

(** ** The boundaries of the slider *)

(** X20.  Reversing the boundaries renders what exchanging [min] and [max]
    renders, and reversing twice renders the same again.  Without
    [showBoundaries] only the slider and the children are rendered,
    whatever [reversed], [min] and [max] are. *)
Theorem Boundaries_reversed_swaps
    {Element : Type} (p : Boundaries.BoundariesProps Element) :
  Boundaries.render Element (Boundaries.flip_reversed Element p)
  = Boundaries.render Element (Boundaries.swap_bounds Element p)
  ∧ Boundaries.render Element
      (Boundaries.flip_reversed Element (Boundaries.flip_reversed Element p))
    = Boundaries.render Element p
  ∧ (Boundaries.showBoundaries Element p = false →
     Boundaries.render Element p
     = option_list (Boundaries.Given Element <$> Boundaries.slider Element p)
       ++ (Boundaries.Given Element <$> Boundaries.children Element p)).
Proof.
  unfold Boundaries.render. simpl.
  destruct (Boundaries.showBoundaries Element p),
    (Boundaries.reversed Element p); simpl; repeat split; done.
Qed.
